(** * Manifold mint detector: extraction, reconciliation and proof cache

    A shallow embedding of
    [packages/indexer/src/orderbook/mints/calldata/detector/manifold.ts]:
    [extractByCollection], [extractByTx], [refreshByCollection] and
    [generateProofValue], with the properties the design document states
    about them.

    The chain, the Manifold HTTP API and the ABI decoder are read through a
    [World] of oracles; every interaction with them (and every upsert into
    the mint store) is recorded, in program order, in a log of [Call]s. *)

From Stdlib Require Import String Ascii List NArith Bool Lia.
From Stdlib Require Import DecimalString DecimalN.
From stdpp Require Import gmap strings.
Import ListNotations.

Open Scope string_scope.
Open Scope N_scope.

(** ** JavaScript values used by the detector *)

(** [x.toString()] of a non-negative integer: its decimal numeral. *)
Definition toString (n : N) : string :=
  NilZero.string_of_uint (N.to_uint n).

(** [bn(s)] on a string: [BigNumber.from] of a decimal numeral; [None] when
    the string is not one (the call throws). *)
Definition bn (s : string) : option N :=
  option_map N.of_uint (NilZero.uint_of_string s).

Definition lowerAscii (c : ascii) : ascii :=
  let n := N_of_ascii c in
  if (65 <=? n) && (n <=? 90) then ascii_of_N (n + 32) else c.

(** [s.toLowerCase()] on the ASCII strings the detector handles (addresses). *)
Fixpoint toLowerCase (s : string) : string :=
  match s with
  | EmptyString => EmptyString
  | String c s' => String (lowerAscii c) (toLowerCase s')
  end.

(** Truthiness of an optional string: [undefined] and the empty string are
    falsy. *)
Definition truthy (o : option string) : bool :=
  match o with
  | Some s => negb (String.eqb s "")
  | None => false
  end.

(** A template literal renders an absent value as the word undefined. *)
Definition render (o : option string) : string :=
  match o with
  | Some s => s
  | None => "undefined"
  end.

(** [a === b] on optional strings. *)
Definition opt_eqb (a b : option string) : bool :=
  match a, b with
  | Some x, Some y => String.eqb x y
  | None, None => true
  | _, _ => false
  end.

(** [HashZero] of [@ethersproject/constants]. *)
Definition HashZero : string :=
  "0x0000000000000000000000000000000000000000000000000000000000000000".

Definition STANDARD : string := "manifold".

(** ** The canonical record *)

Inductive Kind := public | allowlist.
Inductive Status := open | closed.

Inductive ParamKind :=
  | p_contract | p_unknown | p_quantity | p_allowlist | p_recipient.

(** The literal carried by an [unknown] slot: a string or the empty array. *)
Inductive AbiValue :=
  | AbiString (s : string)
  | AbiArray (l : list string).

Record Param := {
  param_kind : ParamKind;
  abiType : string;
  abiValue : option AbiValue
}.

Record TxData := {
  signature : string;
  params : list Param
}.

Record Tx := {
  to : string;
  data : TxData
}.

Record Info := {
  merkleTreeId : option string
}.

Record Details := {
  tx : Tx;
  info : option Info
}.

Record CollectionMint := {
  collection : string;
  contract : string;
  stage : string;
  kind : Kind;
  status : Status;
  statusReason : option string;
  standard : string;
  details : Details;
  currency : string;
  price : string;
  tokenId : option string;
  maxMintsPerWallet : option string;
  maxSupply : option string;
  startTime : option N;
  endTime : option N;
  allowlistId : option string
}.

(** ** On-chain claim structs, as the three ABIs decode them *)

Module Claim1155.
Record t := {
    total : N;
    totalMax : N;
    walletMax : N;
    startDate : N;
    endDate : N;
    storageProtocol : N;
    merkleRoot : string;
    location : string;
    tokenId : N;
    cost : N;
    paymentReceiver : string;
    erc20 : string
}.
End Claim1155.

Module ClaimV1.
Record t := {
    total : N;
    totalMax : N;
    walletMax : N;
    startDate : N;
    endDate : N;
    storageProtocol : N;
    identical : bool;
    merkleRoot : string;
    location : string;
    cost : N;
    paymentReceiver : string
}.
End ClaimV1.

Module ClaimV2.
Record t := {
    total : N;
    totalMax : N;
    walletMax : N;
    startDate : N;
    endDate : N;
    storageProtocol : N;
    identical : bool;
    merkleRoot : string;
    location : string;
    cost : N;
    paymentReceiver : string;
    erc20 : string
}.
End ClaimV2.

(** The local [claimConfig] of the collection-wide ladder. *)
Module ClaimConfig.
Record t := {
    total : N;
    totalMax : N;
    walletMax : N;
    startDate : N;
    endDate : N;
    storageProtocol : N;
    identical : bool;
    merkleRoot : string;
    location : string;
    cost : string;
    paymentReceiver : string;
    erc20 : string;
    mintFee : string;
    mintFeeMerkle : string
}.
End ClaimConfig.

(** [Transaction] of [@/models/transactions]: the two fields read here. *)
Record Transaction := {
  tx_to : string;
  tx_data : string
}.

Record ProofValue := {
  merkleProof : list string;
  value : string
}.

(** ** Interactions with the outside *)

Inductive Call :=
  | GetExtensions (collection : string)
  | GetClaimForToken (extension collection tokenId : string)
  | MintFee (extension : string)
  | MintFeeMerkle (extension : string)
  | GetClaimV1 (extension collection : string) (claimIndex : option string)
  | GetClaimV2 (extension collection : string) (claimIndex : option string)
  | FetchMetadata (url : string)
  | GetStatus (cm : CollectionMint)
  | LoggerError
  | GetCollectionMints (collection standard : string)
  | Upsert (cm : CollectionMint)
  | RedisGet (key : string)
  | RedisSet (key : string) (ttl : N)
  | AxiosGet (url : string).

Inductive exn :=
  | CallFailed (c : Call)
  | InvalidBigNumber (s : string)
  | TypeError.

(** The outside world at one instant: each oracle answers [None] when the
    call it stands for rejects (revert, decode error, network failure).
    The read calls take the JavaScript arguments as they are passed, so a
    claim index may be absent. *)
Record World := {
  (** [Sdk.Common.Addresses.Eth[config.chainId]] *)
  nativeCurrency : string;
  getExtensions : string -> option (list string);
  getClaimForToken : string -> string -> string -> option (N * Claim1155.t);
  MINT_FEE : string -> option N;
  MINT_FEE_MERKLE : string -> option N;
  getClaimV1 : string -> string -> option string -> option ClaimV1.t;
  getClaimV2 : string -> string -> option string -> option ClaimV2.t;
  (** [fetchMetadata(url).then(data => data.publicData.merkleTreeId)] *)
  fetchMetadata : string -> option (option string);
  getStatus : CollectionMint -> option (Status * option string);
  (** [decodeFunctionData(name, data).instanceId] *)
  decodeInstanceId : string -> string -> option N;
  (** [axios.get(url).then(({ data }) => data)] *)
  axiosGet : string -> option (list ProofValue)
}.

(** ** A log-and-exception monad *)

Inductive outcome (A : Type) :=
  | Ok (a : A)
  | Throw (e : exn).
Arguments Ok {A} a.
Arguments Throw {A} e.

Definition M (A : Type) : Type := (list Call * outcome A)%type.

Definition ret {A} (a : A) : M A := ([], Ok a).

Definition throw {A} (e : exn) : M A := ([], Throw e).

Definition bind {A B} (m : M A) (f : A -> M B) : M B :=
  match m with
  | (l, Ok a) => let (l', r) := f a in ((l ++ l')%list, r)
  | (l, Throw e) => (l, Throw e)
  end.

(** [try { m } catch (e) { h e }] *)
Definition tryCatch {A} (m : M A) (h : exn -> M A) : M A :=
  match m with
  | (l, Throw e) => let (l', r) := h e in ((l ++ l')%list, r)
  | (l, Ok a) => (l, Ok a)
  end.

(** An awaited external call: logged, then its answer or a rejection. *)
Definition call {A} (c : Call) (answer : option A) : M A :=
  ([c], match answer with Some a => Ok a | None => Throw (CallFailed c) end).

Definition tell (c : Call) : M unit := ([c], Ok tt).

(** [await Promise.all([a, b, c])]: the three calls are all issued; the
    result rejects as soon as one of them does. *)
Definition promiseAll3 {A B C} (a : M A) (b : M B) (c : M C)
    : M (A * B * C) :=
  ((fst a ++ fst b ++ fst c)%list,
   match snd a, snd b, snd c with
   | Ok x, Ok y, Ok z => Ok (x, y, z)
   | Throw e, _, _ => Throw e
   | _, Throw e, _ => Throw e
   | _, _, Throw e => Throw e
   end).

Notation "x <- m ;; k" := (bind m (fun x => k))
  (at level 100, m at next level, right associativity).
Notation "m ;;; k" := (bind m (fun _ => k))
  (at level 100, right associativity).

Fixpoint mapM {A B} (f : A -> M B) (l : list A) : M (list B) :=
  match l with
  | [] => ret []
  | a :: l' => b <- f a ;; bs <- mapM f l' ;; ret (b :: bs)
  end.

Fixpoint forEachM {A} (f : A -> M unit) (l : list A) : M unit :=
  match l with
  | [] => ret tt
  | a :: l' => f a ;;; forEachM f l'
  end.

(** ** Helpers of [@/orderbook/mints/calldata/helpers] *)

(** Modelled from the spec: [toSafeTimestamp] lives in
    [orderbook/mints/calldata/helpers], whose source is not available
    here.  The design document gives its contract: an on-chain value of zero
    means that no bound was set and surfaces as absent, and a non-zero value
    normalizes to the identical numeric timestamp. *)
Definition toSafeTimestamp (v : N) : option N :=
  if v =? 0 then None else Some v.

Definition liftBn (s : string) : M N :=
  match bn s with
  | Some n => ret n
  | None => throw (InvalidBigNumber s)
  end.

(** ** [extractByCollection] *)

(** The template parameters of [mintBatch] for a public sale: the instance
    id or claim index is a literal, the proof slots are empty arrays. *)
Definition publicParams (id : option AbiValue) : list Param :=
  [ {| param_kind := p_contract; abiType := "address"; abiValue := None |};
    {| param_kind := p_unknown; abiType := "uint256"; abiValue := id |};
    {| param_kind := p_quantity; abiType := "uint16"; abiValue := None |};
    {| param_kind := p_unknown; abiType := "uint32[]";
       abiValue := Some (AbiArray []) |};
    {| param_kind := p_unknown; abiType := "bytes32[][]";
       abiValue := Some (AbiArray []) |};
    {| param_kind := p_recipient; abiType := "address"; abiValue := None |} ].

(** The same for an allowlist sale: the proof slots are filled later. *)
Definition allowlistParams (id : option AbiValue) : list Param :=
  [ {| param_kind := p_contract; abiType := "address"; abiValue := None |};
    {| param_kind := p_unknown; abiType := "uint256"; abiValue := id |};
    {| param_kind := p_quantity; abiType := "uint16"; abiValue := None |};
    {| param_kind := p_allowlist; abiType := "uint32[]"; abiValue := None |};
    {| param_kind := p_allowlist; abiType := "bytes32[][]";
       abiValue := None |};
    {| param_kind := p_recipient; abiType := "address"; abiValue := None |} ].

(** [bn(x).gt(0) ? x.toString() : undefined] *)
Definition capOf (x : N) : option string :=
  if 0 <? x then Some (toString x) else None.

(** [x ? toSafeTimestamp(x) : undefined] *)
Definition timeOf (x : N) : option N :=
  if x =? 0 then None else toSafeTimestamp x.

(** Lines 86-140: the record returned for a public per-token claim. *)
Definition publicTokenMint (w : World) (collection0 tokenId0 extension : string)
    (instanceId : string) (claim : Claim1155.t) (price0 : string)
    : CollectionMint :=
  {| collection := collection0;
     contract := collection0;
     stage := "claim-" ++ toLowerCase extension ++ "-" ++ instanceId;
     kind := public;
     status := open;
     statusReason := None;
     standard := STANDARD;
     details :=
       {| tx := {| to := toLowerCase extension;
                   data := {| signature := "0x26c858a4";
                              params :=
                                publicParams (Some (AbiString instanceId)) |} |};
          info := None |};
     currency := nativeCurrency w;
     price := price0;
     tokenId := Some tokenId0;
     maxMintsPerWallet := capOf (Claim1155.walletMax claim);
     maxSupply := capOf (Claim1155.totalMax claim);
     startTime := timeOf (Claim1155.startDate claim);
     endTime := timeOf (Claim1155.endDate claim);
     allowlistId := None |}.

(** Lines 153-209: the record returned for an allowlist per-token claim. *)
Definition allowlistTokenMint (w : World)
    (collection0 tokenId0 extension : string) (instanceId : string)
    (claim : Claim1155.t) (price0 : string) (merkleTreeId0 : option string)
    : CollectionMint :=
  {| collection := collection0;
     contract := collection0;
     stage := "claim-" ++ toLowerCase extension ++ "-" ++ instanceId;
     kind := allowlist;
     status := open;
     statusReason := None;
     standard := STANDARD;
     details :=
       {| tx := {| to := toLowerCase extension;
                   data := {| signature := "0x26c858a4";
                              params :=
                                allowlistParams
                                  (Some (AbiString instanceId)) |} |};
          info := Some {| merkleTreeId := merkleTreeId0 |} |};
     currency := nativeCurrency w;
     price := price0;
     tokenId := Some tokenId0;
     maxMintsPerWallet := capOf (Claim1155.walletMax claim);
     maxSupply := capOf (Claim1155.totalMax claim);
     startTime := timeOf (Claim1155.startDate claim);
     endTime := timeOf (Claim1155.endDate claim);
     allowlistId := Some (Claim1155.merkleRoot claim) |}.

(** Lines 345-401: the record returned for a public collection-wide claim. *)
Definition publicIndexMint (w : World) (collection0 tokenId0 : string)
    (claimIndex : option string) (extension : string)
    (claimConfig : ClaimConfig.t) (price0 : string) : CollectionMint :=
  {| collection := collection0;
     contract := collection0;
     stage := "claim-" ++ toLowerCase extension ++ "-" ++ render claimIndex;
     kind := public;
     status := open;
     statusReason := None;
     standard := STANDARD;
     details :=
       {| tx := {| to := toLowerCase extension;
                   data := {| signature := "0x26c858a4";
                              params :=
                                publicParams
                                  (option_map AbiString claimIndex) |} |};
          info := None |};
     currency := nativeCurrency w;
     price := price0;
     tokenId := Some tokenId0;
     maxMintsPerWallet := capOf (ClaimConfig.walletMax claimConfig);
     maxSupply := capOf (ClaimConfig.totalMax claimConfig);
     startTime := timeOf (ClaimConfig.startDate claimConfig);
     endTime := timeOf (ClaimConfig.endDate claimConfig);
     allowlistId := None |}.

(** Lines 413-470: the record returned for an allowlist collection-wide
    claim; it has no [tokenId] field. *)
Definition allowlistIndexMint (w : World) (collection0 : string)
    (claimIndex : option string) (extension : string)
    (claimConfig : ClaimConfig.t) (price0 : string)
    (merkleTreeId0 : option string) : CollectionMint :=
  {| collection := collection0;
     contract := collection0;
     stage := "claim-" ++ toLowerCase extension ++ "-" ++ render claimIndex;
     kind := allowlist;
     status := open;
     statusReason := None;
     standard := STANDARD;
     details :=
       {| tx := {| to := toLowerCase extension;
                   data := {| signature := "0x26c858a4";
                              params :=
                                allowlistParams
                                  (option_map AbiString claimIndex) |} |};
          info := Some {| merkleTreeId := merkleTreeId0 |} |};
     currency := nativeCurrency w;
     price := price0;
     tokenId := None;
     maxMintsPerWallet := capOf (ClaimConfig.walletMax claimConfig);
     maxSupply := capOf (ClaimConfig.totalMax claimConfig);
     startTime := timeOf (ClaimConfig.startDate claimConfig);
     endTime := timeOf (ClaimConfig.endDate claimConfig);
     allowlistId := Some (ClaimConfig.merkleRoot claimConfig) |}.

(** Lines 293-308: [claimConfig] as filled from the older shape, which has
    neither an ERC20 field nor mint fees. *)
Definition configOfV1 (w : World) (claim : ClaimV1.t) : ClaimConfig.t :=
  {| ClaimConfig.total := ClaimV1.total claim;
     ClaimConfig.totalMax := ClaimV1.totalMax claim;
     ClaimConfig.walletMax := ClaimV1.walletMax claim;
     ClaimConfig.startDate := ClaimV1.startDate claim;
     ClaimConfig.endDate := ClaimV1.endDate claim;
     ClaimConfig.storageProtocol := ClaimV1.storageProtocol claim;
     ClaimConfig.identical := ClaimV1.identical claim;
     ClaimConfig.merkleRoot := ClaimV1.merkleRoot claim;
     ClaimConfig.location := ClaimV1.location claim;
     ClaimConfig.cost := toString (ClaimV1.cost claim);
     ClaimConfig.paymentReceiver := ClaimV1.paymentReceiver claim;
     ClaimConfig.erc20 := nativeCurrency w;
     ClaimConfig.mintFee := "0";
     ClaimConfig.mintFeeMerkle := "0" |}.

(** Lines 320-335: [claimConfig] as filled from the newer shape. *)
Definition configOfV2 (claim : ClaimV2.t) (mintFee0 mintFeeMerkle0 : N)
    : ClaimConfig.t :=
  {| ClaimConfig.total := ClaimV2.total claim;
     ClaimConfig.totalMax := ClaimV2.totalMax claim;
     ClaimConfig.walletMax := ClaimV2.walletMax claim;
     ClaimConfig.startDate := ClaimV2.startDate claim;
     ClaimConfig.endDate := ClaimV2.endDate claim;
     ClaimConfig.storageProtocol := ClaimV2.storageProtocol claim;
     ClaimConfig.identical := ClaimV2.identical claim;
     ClaimConfig.merkleRoot := ClaimV2.merkleRoot claim;
     ClaimConfig.location := ClaimV2.location claim;
     ClaimConfig.cost := toString (ClaimV2.cost claim);
     ClaimConfig.paymentReceiver := ClaimV2.paymentReceiver claim;
     ClaimConfig.erc20 := ClaimV2.erc20 claim;
     ClaimConfig.mintFee := toString mintFee0;
     ClaimConfig.mintFeeMerkle := toString mintFeeMerkle0 |}.

Definition instanceDataUrl (id : string) : string :=
  "https://apps.api.manifoldxyz.dev/public/instance/data?id=" ++ id.

(** The body of the [for (const extension of extensions)] loop is given in
    three parts, in program order.  In each, [Some l] stands for [return l]
    out of [extractByCollection] and [None] for falling through. *)

(** Lines 70-214, the ERC1155 [try]/[catch]. *)
Definition claimForToken (w : World) (collection0 tokenId0 extension : string)
    : M (option (list CollectionMint)) :=
  tryCatch
    (result <- call (GetClaimForToken extension collection0 tokenId0)
                    (getClaimForToken w extension collection0 tokenId0) ;;
     let instanceId := toString (fst result) in
     let claim := snd result in
     if negb (String.eqb instanceId "0") &&
        String.eqb (toLowerCase (Claim1155.erc20 claim)) (nativeCurrency w)
     then
       (* Public sale *)
       if String.eqb (Claim1155.merkleRoot claim) HashZero then
         (* Include the Manifold mint fee into the price *)
         fee <- call (MintFee extension) (MINT_FEE w extension) ;;
         let price0 := toString (Claim1155.cost claim + fee) in
         ret (Some [publicTokenMint w collection0 tokenId0 extension
                      instanceId claim price0])
       else
       (* Allowlist sale *)
       if negb (String.eqb (Claim1155.merkleRoot claim) HashZero) then
         fee <- call (MintFeeMerkle extension) (MINT_FEE_MERKLE w extension) ;;
         let price0 := toString (Claim1155.cost claim + fee) in
         merkleTreeId0 <- call (FetchMetadata (instanceDataUrl instanceId))
                               (fetchMetadata w (instanceDataUrl instanceId)) ;;
         ret (Some [allowlistTokenMint w collection0 tokenId0 extension
                      instanceId claim price0 merkleTreeId0])
       else ret None
     else ret None)
    (fun _ => tell LoggerError ;;; ret None).

(** Lines 273-338, the two [getClaim] shapes filling [claimConfig]. *)
Definition readClaimConfig (w : World) (collection0 : string)
    (claimIndex : option string) (extension : string)
    : M (option ClaimConfig.t) :=
  let claimConfig : option ClaimConfig.t := None in
  claimConfig <- tryCatch
    (if truthy claimIndex then
       claim <- call (GetClaimV1 extension collection0 claimIndex)
                     (getClaimV1 w extension collection0 claimIndex) ;;
       ret (Some (configOfV1 w claim))
     else ret claimConfig)
    (fun _ => ret claimConfig) ;;
  tryCatch
    (r <- promiseAll3
            (call (GetClaimV2 extension collection0 claimIndex)
                  (getClaimV2 w extension collection0 claimIndex))
            (call (MintFee extension) (MINT_FEE w extension))
            (call (MintFeeMerkle extension) (MINT_FEE_MERKLE w extension)) ;;
     let '(claim, mintFee0, mintFeeMerkle0) := r in
     ret (Some (configOfV2 claim mintFee0 mintFeeMerkle0)))
    (fun _ => ret claimConfig).

(** Lines 340-472, [if (claimConfig) { ... }]. *)
Definition fromClaimConfig (w : World) (collection0 tokenId0 : string)
    (claimIndex : option string) (extension : string)
    (claimConfig : option ClaimConfig.t)
    : M (option (list CollectionMint)) :=
  match claimConfig with
  | None => ret None
  | Some claimConfig =>
    (* Public sale *)
    if String.eqb (ClaimConfig.merkleRoot claimConfig) HashZero then
      (* Include the Manifold mint fee into the price *)
      cost0 <- liftBn (ClaimConfig.cost claimConfig) ;;
      fee <- liftBn (ClaimConfig.mintFee claimConfig) ;;
      let price0 := toString (cost0 + fee) in
      ret (Some [publicIndexMint w collection0 tokenId0 claimIndex extension
                   claimConfig price0])
    else
    (* Allowlist sale *)
    if negb (String.eqb (ClaimConfig.merkleRoot claimConfig) HashZero) then
      cost0 <- liftBn (ClaimConfig.cost claimConfig) ;;
      fee <- liftBn (ClaimConfig.mintFeeMerkle claimConfig) ;;
      let price0 := toString (cost0 + fee) in
      merkleTreeId0 <-
        call (FetchMetadata (instanceDataUrl (render claimIndex)))
             (fetchMetadata w (instanceDataUrl (render claimIndex))) ;;
      ret (Some [allowlistIndexMint w collection0 claimIndex extension
                   claimConfig price0 merkleTreeId0])
    else ret None
  end.

Definition scanExtension (w : World) (collection0 tokenId0 : string)
    (claimIndex : option string) (extension : string)
    : M (option (list CollectionMint)) :=
  r <- claimForToken w collection0 tokenId0 extension ;;
  match r with
  | Some l => ret (Some l)
  | None =>
      claimConfig <- readClaimConfig w collection0 claimIndex extension ;;
      fromClaimConfig w collection0 tokenId0 claimIndex extension claimConfig
  end.

(** [for (const extension of extensions) { ... }] *)
Fixpoint forExtensions (w : World) (collection0 tokenId0 : string)
    (claimIndex : option string) (extensions : list string)
    : M (option (list CollectionMint)) :=
  match extensions with
  | [] => ret None
  | extension :: rest =>
      r <- scanExtension w collection0 tokenId0 claimIndex extension ;;
      match r with
      | Some l => ret (Some l)
      | None => forExtensions w collection0 tokenId0 claimIndex rest
      end
  end.

(** [cm.status = status; cm.statusReason = reason] *)
Definition setStatus (cm : CollectionMint) (s : Status)
    (reason : option string) : CollectionMint :=
  {| collection := collection cm;
     contract := contract cm;
     stage := stage cm;
     kind := kind cm;
     status := s;
     statusReason := reason;
     standard := standard cm;
     details := details cm;
     currency := currency cm;
     price := price cm;
     tokenId := tokenId cm;
     maxMintsPerWallet := maxMintsPerWallet cm;
     maxSupply := maxSupply cm;
     startTime := startTime cm;
     endTime := endTime cm;
     allowlistId := allowlistId cm |}.

Definition extractByCollection (w : World) (collection0 tokenId0 : string)
    (extension claimIndex : option string) : M (list CollectionMint) :=
  (* extension ? [extension] : await ... getExtensions() *)
  extensions <-
    match extension with
    | Some extension =>
        if negb (String.eqb extension "") then ret [extension]
        else call (GetExtensions collection0) (getExtensions w collection0)
    | None => call (GetExtensions collection0) (getExtensions w collection0)
    end ;;
  let results : list CollectionMint := [] in
  r <- forExtensions w collection0 tokenId0 claimIndex extensions ;;
  match r with
  | Some l => ret l
  | None =>
      (* Update the status of each collection mint *)
      mapM (fun cm =>
              sr <- call (GetStatus cm) (getStatus w cm) ;;
              ret (setStatus cm (fst sr) (snd sr)))
           results
  end.

(** ** [extractByTx] *)

Definition extractByTx (w : World) (collection0 tokenId0 : string)
    (tx0 : Transaction) : M (list CollectionMint) :=
  if existsb (fun bytes4 => String.prefix bytes4 (tx_data tx0))
       ["0xfa2b068f"; "0x26c858a4"]
  then
    let instanceId : option string :=
      (* a decoding failure is swallowed and leaves [instanceId] undefined *)
      option_map toString
        (decodeInstanceId w
           (if String.prefix "0xfa2b068f" (tx_data tx0)
            then "mint" else "mintBatch")
           (tx_data tx0)) in
    extractByCollection w collection0 tokenId0 (Some (tx_to tx0)) instanceId
  else ret [].

(** ** The mint store *)

(** [getCollectionMints] and [simulateAndUpsertCollectionMint] belong to
    [@/orderbook/mints], whose source is not available here.  What follows
    is what the design document says of them. *)

(** Modelled from the spec: the persisted record set behind
    [@/orderbook/mints].  Records are created by extraction, have their
    status changed, and are closed, never deleted; the store is the list of
    the records, oldest first. *)
Definition Store : Type := list CollectionMint.

(** Modelled from the spec: the natural key of a stored record.  [stage] is
    unique per collection and standard, and reconciliation compares records
    by collection, stage and tokenId. *)
Definition sameRow (a b : CollectionMint) : bool :=
  String.eqb (collection a) (collection b) &&
  String.eqb (standard a) (standard b) &&
  String.eqb (stage a) (stage b) &&
  opt_eqb (tokenId a) (tokenId b).

(** Modelled from the spec: [getCollectionMints(collection, { standard })]
    loads all previously stored records for the collection, restricted to
    one standard. *)
Definition getCollectionMints (db : Store) (collection0 standard0 : string)
    : list CollectionMint :=
  List.filter
    (fun cm => String.eqb (collection cm) collection0 &&
               String.eqb (standard cm) standard0)
    db.

(** Modelled from the spec: the upsert behind
    [simulateAndUpsertCollectionMint].  The record replaces the stored
    record with its key, or is added when there is none.  The simulation
    step that precedes it belongs to an external collaborator and is taken
    to confirm the record as given. *)
Definition upsert (cm : CollectionMint) (db : Store) : Store :=
  if existsb (sameRow cm) db
  then map (fun row => if sameRow cm row then cm else row) db
  else (db ++ [cm])%list.

(** The store after the upserts recorded in a log, in order. *)
Fixpoint applyUpserts (log : list Call) (db : Store) : Store :=
  match log with
  | [] => db
  | Upsert cm :: log' => applyUpserts log' (upsert cm db)
  | _ :: log' => applyUpserts log' db
  end.

(** Modelled from the spec: [simulateAndUpsertCollectionMint(record)], as
    [refreshByCollection] sees it, is one write through the upsert path; it
    is taken to return normally. *)
Definition simulateAndUpsertCollectionMint (cm : CollectionMint) : M unit :=
  tell (Upsert cm).

(** ** [refreshByCollection] *)

(** The token ids the outer loop runs over:
    [existingCollectionMints.filter((cm) => cm.tokenId)], destructured. *)
Definition truthyTokenIds (l : list CollectionMint) : list string :=
  flat_map
    (fun cm =>
       match tokenId cm with
       | Some t => if String.eqb t "" then [] else [t]
       | None => []
       end)
    l.

(** The predicate given to [latestCollectionMints.find]. *)
Definition sameTriple (latest existing : CollectionMint) : bool :=
  String.eqb (collection latest) (collection existing) &&
  String.eqb (stage latest) (stage existing) &&
  opt_eqb (tokenId latest) (tokenId existing).

(** [{ ...existing, status: "closed" }] *)
Definition closedCopy (existing : CollectionMint) : CollectionMint :=
  setStatus existing closed (statusReason existing).

(** [!latestCollectionMints.find(...)] for one stored record. *)
Definition missingFrom (latestCollectionMints : list CollectionMint)
    (existing : CollectionMint) : bool :=
  negb (existsb (fun latest => sameTriple latest existing)
                latestCollectionMints).

(** One iteration of the outer loop. *)
Definition refreshPass (w : World) (collection0 : string)
    (existingCollectionMints : list CollectionMint) (tokenId0 : string)
    : M unit :=
  (* Fetch and save/update the currently available mints *)
  latestCollectionMints <-
    extractByCollection w collection0 tokenId0 None None ;;
  forEachM simulateAndUpsertCollectionMint latestCollectionMints ;;;
  (* Anything stored that was not returned by the above call is closed *)
  forEachM
    (fun existing =>
       if missingFrom latestCollectionMints existing
       then simulateAndUpsertCollectionMint (closedCopy existing)
       else ret tt)
    existingCollectionMints.

Definition refreshByCollection (w : World) (db : Store)
    (collection0 : string) : M unit :=
  existingCollectionMints <-
    call (GetCollectionMints collection0 STANDARD)
         (Some (getCollectionMints db collection0 STANDARD)) ;;
  forEachM (refreshPass w collection0 existingCollectionMints)
           (truthyTokenIds existingCollectionMints).

(** The store after one refresh. *)
Definition refreshed (w : World) (db : Store) (collection0 : string)
    : Store :=
  applyUpserts (fst (refreshByCollection w db collection0)) db.

(** ** [generateProofValue] *)

(** The text [JSON.stringify] produces for a [ProofValue]; [JSON.parse]
    reads the value back. *)
Inductive json := JsonText (v : ProofValue).

Definition JSON_stringify (v : ProofValue) : json := JsonText v.
Definition JSON_parse (j : json) : ProofValue :=
  match j with JsonText v => v end.

(** The Redis keyspace: each key holds a text and the instant it expires. *)
Definition redis_get (now : N) (redis : gmap string (json * N))
    (key : string) : option json :=
  match redis !! key with
  | Some (v, expiry) => if now <? expiry then Some v else None
  | None => None
  end.

(** [redis.set(key, v, "EX", ttl)] *)
Definition redis_set (now : N) (redis : gmap string (json * N))
    (key : string) (v : json) (ttl : N) : gmap string (json * N) :=
  <[key := (v, now + ttl)]> redis.

(** [const cacheKey = `${collection}-${stage}-${tokenId}`] *)
Definition cacheKeyOf (collectionMint : CollectionMint) : string :=
  collection collectionMint ++ "-" ++ stage collectionMint ++ "-"
    ++ render (tokenId collectionMint).

Definition merkleInfoUrl (info0 : Info) (address : string) : string :=
  "https://apps.api.manifoldxyz.dev/public/merkleTree/"
    ++ render (merkleTreeId info0) ++ "/merkleInfo?address=" ++ address.

(** [generateProofValue] at instant [now] over the keyspace [redis]: the
    log and outcome, and the keyspace it leaves. *)
Definition generateProofValue (w : World) (now : N)
    (redis : gmap string (json * N))
    (collectionMint : CollectionMint) (address : string)
    : M (option ProofValue) * gmap string (json * N) :=
  let cacheKey := cacheKeyOf collectionMint in
  match option_map JSON_parse (redis_get now redis cacheKey) with
  | Some result => (([RedisGet cacheKey], Ok (Some result)), redis)
  | None =>
      match info (details collectionMint) with
      | None => (([RedisGet cacheKey], Throw TypeError), redis)
      | Some info0 =>
          let url := merkleInfoUrl info0 address in
          match axiosGet w url with
          | None =>
              (([RedisGet cacheKey; AxiosGet url],
                Throw (CallFailed (AxiosGet url))), redis)
          | Some data0 =>
              match data0 with
              | result :: _ =>
                  (([RedisGet cacheKey; AxiosGet url; RedisSet cacheKey 3600],
                    Ok (Some result)),
                   redis_set now redis cacheKey (JSON_stringify result) 3600)
              | [] => (([RedisGet cacheKey; AxiosGet url], Ok None), redis)
              end
          end
      end
  end.

(** ** Where an extracted record comes from *)

(** The claim configuration a record is built from: the per-token
    (1155-style) read [getClaimForToken], or one of the two shapes of the
    collection-wide read [getClaim]. *)
Inductive Source :=
  | PerToken (instanceId : N) (claim : Claim1155.t)
  | OlderShape (claim : ClaimV1.t)
  | NewerShape (claim : ClaimV2.t).

Definition rootOf (s : Source) : string :=
  match s with
  | PerToken _ claim => Claim1155.merkleRoot claim
  | OlderShape claim => ClaimV1.merkleRoot claim
  | NewerShape claim => ClaimV2.merkleRoot claim
  end.

Definition costOf (s : Source) : N :=
  match s with
  | PerToken _ claim => Claim1155.cost claim
  | OlderShape claim => ClaimV1.cost claim
  | NewerShape claim => ClaimV2.cost claim
  end.

Definition walletMaxOf (s : Source) : N :=
  match s with
  | PerToken _ claim => Claim1155.walletMax claim
  | OlderShape claim => ClaimV1.walletMax claim
  | NewerShape claim => ClaimV2.walletMax claim
  end.

Definition totalMaxOf (s : Source) : N :=
  match s with
  | PerToken _ claim => Claim1155.totalMax claim
  | OlderShape claim => ClaimV1.totalMax claim
  | NewerShape claim => ClaimV2.totalMax claim
  end.

Definition startDateOf (s : Source) : N :=
  match s with
  | PerToken _ claim => Claim1155.startDate claim
  | OlderShape claim => ClaimV1.startDate claim
  | NewerShape claim => ClaimV2.startDate claim
  end.

Definition endDateOf (s : Source) : N :=
  match s with
  | PerToken _ claim => Claim1155.endDate claim
  | OlderShape claim => ClaimV1.endDate claim
  | NewerShape claim => ClaimV2.endDate claim
  end.

Definition isPerToken (s : Source) : bool :=
  match s with
  | PerToken _ _ => true
  | _ => false
  end.

(** The newer-shape attempt of [readClaimConfig] succeeds when its three
    reads all do. *)
Definition newerShapeReads (w : World) (collection0 : string)
    (claimIndex : option string) (extension : string) : bool :=
  match getClaimV2 w extension collection0 claimIndex,
        MINT_FEE w extension, MINT_FEE_MERKLE w extension with
  | Some _, Some _, Some _ => true
  | _, _, _ => false
  end.

(** [Emits w collection tokenId claimIndex extension s fee cm]: in world
    [w], the ladder run on [extension] reads the claim configuration [s],
    adds the fee [fee] to its cost and returns the record [cm]. *)
Inductive Emits (w : World) (collection0 tokenId0 : string)
    (claimIndex : option string) (extension : string)
    : Source -> N -> CollectionMint -> Prop :=
  | emits_token_public instanceId claim fee :
      getClaimForToken w extension collection0 tokenId0
        = Some (instanceId, claim) ->
      instanceId <> 0 ->
      toLowerCase (Claim1155.erc20 claim) = nativeCurrency w ->
      Claim1155.merkleRoot claim = HashZero ->
      MINT_FEE w extension = Some fee ->
      Emits w collection0 tokenId0 claimIndex extension
        (PerToken instanceId claim) fee
        (publicTokenMint w collection0 tokenId0 extension
           (toString instanceId) claim (toString (Claim1155.cost claim + fee)))
  | emits_token_allowlist instanceId claim fee tree :
      getClaimForToken w extension collection0 tokenId0
        = Some (instanceId, claim) ->
      instanceId <> 0 ->
      toLowerCase (Claim1155.erc20 claim) = nativeCurrency w ->
      Claim1155.merkleRoot claim <> HashZero ->
      MINT_FEE_MERKLE w extension = Some fee ->
      fetchMetadata w (instanceDataUrl (toString instanceId)) = Some tree ->
      Emits w collection0 tokenId0 claimIndex extension
        (PerToken instanceId claim) fee
        (allowlistTokenMint w collection0 tokenId0 extension
           (toString instanceId) claim (toString (Claim1155.cost claim + fee))
           tree)
  | emits_newer_public claim fee feeMerkle :
      getClaimV2 w extension collection0 claimIndex = Some claim ->
      MINT_FEE w extension = Some fee ->
      MINT_FEE_MERKLE w extension = Some feeMerkle ->
      ClaimV2.merkleRoot claim = HashZero ->
      Emits w collection0 tokenId0 claimIndex extension
        (NewerShape claim) fee
        (publicIndexMint w collection0 tokenId0 claimIndex extension
           (configOfV2 claim fee feeMerkle)
           (toString (ClaimV2.cost claim + fee)))
  | emits_newer_allowlist claim fee feeMerkle tree :
      getClaimV2 w extension collection0 claimIndex = Some claim ->
      MINT_FEE w extension = Some fee ->
      MINT_FEE_MERKLE w extension = Some feeMerkle ->
      ClaimV2.merkleRoot claim <> HashZero ->
      fetchMetadata w (instanceDataUrl (render claimIndex)) = Some tree ->
      Emits w collection0 tokenId0 claimIndex extension
        (NewerShape claim) feeMerkle
        (allowlistIndexMint w collection0 claimIndex extension
           (configOfV2 claim fee feeMerkle)
           (toString (ClaimV2.cost claim + feeMerkle)) tree)
  | emits_older_public claim :
      truthy claimIndex = true ->
      getClaimV1 w extension collection0 claimIndex = Some claim ->
      newerShapeReads w collection0 claimIndex extension = false ->
      ClaimV1.merkleRoot claim = HashZero ->
      Emits w collection0 tokenId0 claimIndex extension
        (OlderShape claim) 0
        (publicIndexMint w collection0 tokenId0 claimIndex extension
           (configOfV1 w claim) (toString (ClaimV1.cost claim + 0)))
  | emits_older_allowlist claim tree :
      truthy claimIndex = true ->
      getClaimV1 w extension collection0 claimIndex = Some claim ->
      newerShapeReads w collection0 claimIndex extension = false ->
      ClaimV1.merkleRoot claim <> HashZero ->
      fetchMetadata w (instanceDataUrl (render claimIndex)) = Some tree ->
      Emits w collection0 tokenId0 claimIndex extension
        (OlderShape claim) 0
        (allowlistIndexMint w collection0 claimIndex extension
           (configOfV1 w claim) (toString (ClaimV1.cost claim + 0)) tree).


(** The fee the detector adds to the cost of a claim read as [s]: the
    contract's [MINT_FEE] for a public sale and [MINT_FEE_MERKLE] for an
    allowlist sale, except under the older [getClaim] shape, which has no
    fee. *)
Definition feeFor (w : World) (extension : string) (s : Source) : option N :=
  match s with
  | OlderShape _ => Some 0
  | _ => if String.eqb (rootOf s) HashZero then MINT_FEE w extension
         else MINT_FEE_MERKLE w extension
  end.

(** The extensions [extractByCollection] scans: the hint when there is one,
    the collection's registered extensions otherwise. *)
Definition scanned (w : World) (collection0 : string)
    (extension : option string) : option (list string) :=
  match extension with
  | Some e => if negb (String.eqb e "") then Some [e]
              else getExtensions w collection0
  | None => getExtensions w collection0
  end.

(** The outcome of scanning extensions one after the other: that of the
    first extension whose ladder returns records or rejects. *)
Fixpoint firstReturn (outcomes : list (outcome (option (list CollectionMint))))
    : outcome (option (list CollectionMint)) :=
  match outcomes with
  | [] => Ok None
  | Ok None :: rest => firstReturn rest
  | r :: _ => r
  end.

(** The calls [extractByCollection] can make: reads of the chain and of
    the metadata service, and the error logger. *)
Definition isRead (c : Call) : bool :=
  match c with
  | GetExtensions _ | GetClaimForToken _ _ _ | MintFee _ | MintFeeMerkle _
  | GetClaimV1 _ _ _ | GetClaimV2 _ _ _ | FetchMetadata _ | LoggerError => true
  | _ => false
  end.

Definition onlyReads (log : list Call) : Prop :=
  forallb isRead log = true.

(** The records written through [simulateAndUpsertCollectionMint]. *)
Definition writesOf (log : list Call) : list CollectionMint :=
  flat_map (fun c => match c with Upsert cm => [cm] | _ => [] end) log.

(** What the extraction of a pass returns, and whether it returns at all. *)
Definition extracted (w : World) (collection0 tokenId0 : string)
    : list CollectionMint :=
  match snd (extractByCollection w collection0 tokenId0 None None) with
  | Ok l => l
  | Throw _ => []
  end.

Definition extracts (w : World) (collection0 tokenId0 : string) : bool :=
  match snd (extractByCollection w collection0 tokenId0 None None) with
  | Ok _ => true
  | Throw _ => false
  end.

(** The passes a refresh completes: those before the first whose
    extraction rejects. *)
Fixpoint completed (w : World) (collection0 : string) (tokens : list string)
    : list string :=
  match tokens with
  | [] => []
  | t :: tokens' =>
      if extracts w collection0 t then t :: completed w collection0 tokens'
      else []
  end.

Definition isClosed (cm : CollectionMint) : bool :=
  match status cm with
  | closed => true
  | open => false
  end.

(** The configuration the design document gives the collection-wide
    fallback: the newer shape's when its reads succeed, otherwise the older
    shape's, and that one only under a claim-index hint. *)
Definition preferredConfig (w : World) (collection0 : string)
    (claimIndex : option string) (extension : string)
    : option ClaimConfig.t :=
  match getClaimV2 w extension collection0 claimIndex,
        MINT_FEE w extension, MINT_FEE_MERKLE w extension with
  | Some claim, Some fee, Some feeMerkle =>
      Some (configOfV2 claim fee feeMerkle)
  | _, _, _ =>
      if truthy claimIndex
      then option_map (configOfV1 w)
             (getClaimV1 w extension collection0 claimIndex)
      else None
  end.

(** ** Rows and writes *)

(** The key of a row, and the stored row a sequence of writes settles on:
    the last write to its key, or the row itself when none touches it. *)
Definition rowKey (cm : CollectionMint)
    : string * string * string * option string :=
  (collection cm, standard cm, stage cm, tokenId cm).

Fixpoint lastMatch (row : CollectionMint) (writes : list CollectionMint)
    : option CollectionMint :=
  match writes with
  | [] => None
  | cm :: writes' =>
      match lastMatch row writes' with
      | Some x => Some x
      | None => if sameRow cm row then Some cm else None
      end
  end.

Definition settle (writes : list CollectionMint) (row : CollectionMint)
    : CollectionMint :=
  match lastMatch row writes with
  | Some cm => cm
  | None => row
  end.

(** A write of a first refresh and the write a second one makes in its
    place, when [f] gives the stored row after the first refresh: the same
    record, or the closed copies of a stored record before and after. *)
Definition repeats (f : CollectionMint -> CollectionMint)
    (a b : CollectionMint) : Prop :=
  a = b \/ exists x, a = closedCopy x /\ b = closedCopy (f x).

(** ** Concrete scenarios *)

Definition zeroAddress : string :=
  "0x0000000000000000000000000000000000000000".

Definition aCollection : string :=
  "0x00000000000000000000000000000000000000c1".

Definition anExtension : string :=
  "0x00000000000000000000000000000000000000E1".

Definition aRoot : string :=
  "0x1111111111111111111111111111111111111111111111111111111111111111".

Definition tokenClaim (root : string) (cost0 : N) : Claim1155.t :=
  {| Claim1155.total := 0;
     Claim1155.totalMax := 10;
     Claim1155.walletMax := 0;
     Claim1155.startDate := 0;
     Claim1155.endDate := 1700000000;
     Claim1155.storageProtocol := 1;
     Claim1155.merkleRoot := root;
     Claim1155.location := "";
     Claim1155.tokenId := 7;
     Claim1155.cost := cost0;
     Claim1155.paymentReceiver := zeroAddress;
     Claim1155.erc20 := zeroAddress |}.

Definition olderClaim (root : string) (cost0 : N) : ClaimV1.t :=
  {| ClaimV1.total := 0;
     ClaimV1.totalMax := 0;
     ClaimV1.walletMax := 2;
     ClaimV1.startDate := 0;
     ClaimV1.endDate := 1700000000;
     ClaimV1.storageProtocol := 1;
     ClaimV1.identical := true;
     ClaimV1.merkleRoot := root;
     ClaimV1.location := "";
     ClaimV1.cost := cost0;
     ClaimV1.paymentReceiver := zeroAddress |}.

Definition newerClaim (root : string) (cost0 : N) : ClaimV2.t :=
  {| ClaimV2.total := 0;
     ClaimV2.totalMax := 0;
     ClaimV2.walletMax := 2;
     ClaimV2.startDate := 0;
     ClaimV2.endDate := 1700000000;
     ClaimV2.storageProtocol := 1;
     ClaimV2.identical := true;
     ClaimV2.merkleRoot := root;
     ClaimV2.location := "";
     ClaimV2.cost := cost0;
     ClaimV2.paymentReceiver := zeroAddress;
     ClaimV2.erc20 := zeroAddress |}.

(** A world with one registered extension, given what its reads answer. *)
Definition scenario
    (perToken : string -> option (N * Claim1155.t))
    (older : option string -> option ClaimV1.t)
    (newer : option string -> option ClaimV2.t)
    (fee feeMerkle : option N) : World :=
  {| nativeCurrency := zeroAddress;
     getExtensions := fun _ => Some [anExtension];
     getClaimForToken := fun _ _ t => perToken t;
     MINT_FEE := fun _ => fee;
     MINT_FEE_MERKLE := fun _ => feeMerkle;
     getClaimV1 := fun _ _ i => older i;
     getClaimV2 := fun _ _ i => newer i;
     fetchMetadata := fun _ => Some (Some "tree-1");
     getStatus := fun _ => None;
     decodeInstanceId :=
       fun name _ => if String.eqb name "mint" then Some 1 else None;
     axiosGet :=
       fun _ => Some [ {| merkleProof := [aRoot]; value := "1" |} ] |}.

Definition noToken : string -> option (N * Claim1155.t) := fun _ => None.
Definition noOlder : option string -> option ClaimV1.t := fun _ => None.
Definition noNewer : option string -> option ClaimV2.t := fun _ => None.

(** Token 7 is sold publicly at cost 100 with a flat fee of 5. *)
Definition tokenWorld : World :=
  scenario
    (fun t => if String.eqb t "7" then Some (3, tokenClaim HashZero 100)
              else None)
    noOlder noNewer (Some 5) (Some 9).

(** An extension of the older claim-index shape: no fee functions. *)
Definition olderWorld : World :=
  scenario noToken
    (fun i => if opt_eqb i (Some "1") then Some (olderClaim HashZero 100)
              else None)
    noNewer None None.

(** An extension of the newer claim-index shape, public claim 1. *)
Definition newerWorld : World :=
  scenario noToken noOlder
    (fun i => if opt_eqb i (Some "1") then Some (newerClaim HashZero 100)
              else None)
    (Some 5) (Some 9).

(** An extension whose claim 1 decodes in both shapes, as an allowlist. *)
Definition bothWorld : World :=
  scenario noToken
    (fun i => if opt_eqb i (Some "1") then Some (olderClaim aRoot 100)
              else None)
    (fun i => if opt_eqb i (Some "1") then Some (newerClaim aRoot 200)
              else None)
    (Some 5) (Some 9).

Definition mintTx : Transaction :=
  {| tx_to := anExtension;
     tx_data := "0xfa2b068f00000000000000000000000000000000000000c1" |}.

Definition otherTx : Transaction :=
  {| tx_to := anExtension; tx_data := "0xa9059cbb" |}.

(** An allowlist stage as stored, and two claimants. *)
Definition allowlistStage : CollectionMint :=
  allowlistIndexMint bothWorld aCollection (Some "1") anExtension
    (configOfV2 (newerClaim aRoot 200) 5 9) "209" (Some "tree-1").

Definition alice : string := "0x00000000000000000000000000000000000000a1".
Definition bob : string := "0x00000000000000000000000000000000000000b2".

Definition aliceProof : ProofValue :=
  {| merkleProof := [aRoot]; value := "1" |}.

(** A proof service that knows no claimant. *)
Definition strangerWorld : World :=
  {| nativeCurrency := zeroAddress;
     getExtensions := fun _ => Some [];
     getClaimForToken := fun _ _ _ => None;
     MINT_FEE := fun _ => None;
     MINT_FEE_MERKLE := fun _ => None;
     getClaimV1 := fun _ _ _ => None;
     getClaimV2 := fun _ _ _ => None;
     fetchMetadata := fun _ => None;
     getStatus := fun _ => None;
     decodeInstanceId := fun _ _ => None;
     axiosGet := fun _ => Some [] |}.

(** Two stored per-token stages, for tokens 7 and 8. *)
Definition mint7 : CollectionMint :=
  publicTokenMint tokenWorld aCollection "7" anExtension "3"
    (tokenClaim HashZero 100) "105".

Definition mint8 : CollectionMint :=
  publicTokenMint tokenWorld aCollection "8" anExtension "4"
    (tokenClaim HashZero 100) "105".

(** Token 7 as it is extracted once its claim has moved to instance 5. *)
Definition mint7moved : CollectionMint :=
  publicTokenMint tokenWorld aCollection "7" anExtension "5"
    (tokenClaim HashZero 100) "105".

(** The extension no longer answers for any claim. *)
Definition goneWorld : World := scenario noToken noOlder noNewer None None.

(** Tokens 7 and 8 are both on sale, as stored. *)
Definition twoTokenWorld : World :=
  scenario
    (fun t => if String.eqb t "7" then Some (3, tokenClaim HashZero 100)
              else if String.eqb t "8" then Some (4, tokenClaim HashZero 100)
              else None)
    noOlder noNewer (Some 5) (Some 9).

(** Token 8 is on sale as stored; token 7 is now sold under instance 5. *)
Definition movedWorld : World :=
  scenario
    (fun t => if String.eqb t "7" then Some (5, tokenClaim HashZero 100)
              else if String.eqb t "8" then Some (4, tokenClaim HashZero 100)
              else None)
    noOlder noNewer (Some 5) (Some 9).

(** ** Proof steps shared below *)

Ltac unfold_monad :=
  unfold bind, tryCatch, call, tell, ret, throw, promiseAll3, liftBn in *;
  simpl in *.

Ltac inv_pair H := inversion H; subst; clear H.

(** ** Further scenarios *)

Definition usdc : string := "0xA0b86991c6218b36c1d19D4a2e9Eb0cE3606eB48".

(** A per-token claim paid in an ERC20 token. *)
Definition erc20TokenClaim : Claim1155.t :=
  {| Claim1155.total := 0;
     Claim1155.totalMax := 10;
     Claim1155.walletMax := 0;
     Claim1155.startDate := 0;
     Claim1155.endDate := 0;
     Claim1155.storageProtocol := 1;
     Claim1155.merkleRoot := HashZero;
     Claim1155.location := "";
     Claim1155.tokenId := 7;
     Claim1155.cost := 100;
     Claim1155.paymentReceiver := zeroAddress;
     Claim1155.erc20 := usdc |}.

Definition erc20World : World :=
  scenario (fun _ => Some (3, erc20TokenClaim)) noOlder noNewer
    (Some 5) (Some 9).

(** A collection-wide claim of the newer shape paid in an ERC20 token. *)
Definition erc20NewerClaim : ClaimV2.t :=
  {| ClaimV2.total := 0;
     ClaimV2.totalMax := 0;
     ClaimV2.walletMax := 2;
     ClaimV2.startDate := 0;
     ClaimV2.endDate := 0;
     ClaimV2.storageProtocol := 1;
     ClaimV2.identical := true;
     ClaimV2.merkleRoot := HashZero;
     ClaimV2.location := "";
     ClaimV2.cost := 100;
     ClaimV2.paymentReceiver := zeroAddress;
     ClaimV2.erc20 := usdc |}.

Definition erc20NewerWorld : World :=
  scenario noToken noOlder (fun _ => Some erc20NewerClaim) (Some 5) (Some 9).

(** Allowlist claims, per token and collection-wide, while the metadata
    service is down. *)
Definition offlineWorld : World :=
  {| nativeCurrency := zeroAddress;
     getExtensions := fun _ => Some [anExtension];
     getClaimForToken :=
       fun _ _ t => if String.eqb t "7" then Some (3, tokenClaim aRoot 100)
                    else None;
     MINT_FEE := fun _ => Some 5;
     MINT_FEE_MERKLE := fun _ => Some 9;
     getClaimV1 := fun _ _ _ => None;
     getClaimV2 := fun _ _ _ => Some (newerClaim aRoot 200);
     fetchMetadata := fun _ => None;
     getStatus := fun _ => None;
     decodeInstanceId := fun _ _ => None;
     axiosGet := fun _ => None |}.

(** Token 7 is sold to an allowlist, the metadata service answering. *)
Definition allowlistTokenWorld : World :=
  scenario (fun _ => Some (3, tokenClaim aRoot 100)) noOlder noNewer
    (Some 5) (Some 9).

(** The calls of the collection-wide reads on one extension. *)
Definition indexReads (collection0 : string) (claimIndex : option string)
    (extension : string) : list Call :=
  ((if truthy claimIndex
    then [GetClaimV1 extension collection0 claimIndex] else []) ++
   [GetClaimV2 extension collection0 claimIndex;
    MintFee extension; MintFeeMerkle extension])%list.

(** A call that belongs to the scan of [extension] for the given
    collection, token id and claim index: a read addressed to that
    extension with those arguments, the metadata fetch or the error
    logger. *)
Definition scansOnly (extension collection0 tokenId0 : string)
    (claimIndex : option string) (c : Call) : Prop :=
  match c with
  | GetClaimForToken e' c' t' =>
      e' = extension /\ c' = collection0 /\ t' = tokenId0
  | MintFee e' | MintFeeMerkle e' => e' = extension
  | GetClaimV1 e' c' i =>
      e' = extension /\ c' = collection0 /\ i = claimIndex /\
      truthy claimIndex = true
  | GetClaimV2 e' c' i => e' = extension /\ c' = collection0 /\ i = claimIndex
  | FetchMetadata _ | LoggerError => True
  | _ => False
  end.

(** The literal in the instance-id slot of a template, as a template
    literal would print it. *)
Definition idSlot (cm : CollectionMint) : string :=
  match nth_error (params (data (tx (details cm)))) 1 with
  | Some p =>
      match abiValue p with
      | Some (AbiString s) => s
      | _ => "undefined"
      end
  | None => "undefined"
  end.

(** Two registered extensions: the first sells token 7, the second is of
    no known shape. *)
Definition twoExtensionWorld : World :=
  {| nativeCurrency := zeroAddress;
     getExtensions := fun _ => Some [anExtension; usdc];
     getClaimForToken :=
       fun e _ t => if String.eqb e anExtension
                    then Some (3, tokenClaim HashZero 100) else None;
     MINT_FEE := fun _ => Some 5;
     MINT_FEE_MERKLE := fun _ => Some 9;
     getClaimV1 := fun _ _ _ => None;
     getClaimV2 := fun _ _ _ => None;
     fetchMetadata := fun _ => None;
     getStatus := fun _ => None;
     decodeInstanceId := fun _ _ => None;
     axiosGet := fun _ => None |}.

(** Transactions calling [mintBatch], the second with arguments the
    decoder rejects. *)
Definition mintBatchTx : Transaction :=
  {| tx_to := anExtension;
     tx_data := "0x26c858a400000000000000000000000000000000000000c1" |}.

Definition truncatedTx : Transaction :=
  {| tx_to := anExtension; tx_data := "0x26c858a4" |}.

(** A world whose decoder reads instance 1 out of [mintBatch] calls longer
    than the bare selector. *)
Definition batchWorld : World :=
  {| nativeCurrency := zeroAddress;
     getExtensions := fun _ => Some [anExtension];
     getClaimForToken := fun _ _ _ => None;
     MINT_FEE := fun _ => Some 5;
     MINT_FEE_MERKLE := fun _ => Some 9;
     getClaimV1 :=
       fun _ _ i => if opt_eqb i (Some "1")
                    then Some (olderClaim HashZero 100) else None;
     getClaimV2 :=
       fun _ _ i => if opt_eqb i (Some "1")
                    then Some (newerClaim HashZero 100) else None;
     fetchMetadata := fun _ => Some (Some "tree-1");
     getStatus := fun _ => None;
     decodeInstanceId :=
       fun name d => if String.eqb name "mintBatch" &&
                        negb (String.eqb d "0x26c858a4")
                     then Some 1 else None;
     axiosGet := fun _ => None |}.

(** A string without a dash, as addresses and decimal token ids are. *)
Fixpoint dashFree (s : string) : bool :=
  match s with
  | EmptyString => true
  | String a s' => negb (Ascii.eqb a "-") && dashFree s'
  end.

Definition bobProof : ProofValue :=
  {| merkleProof := [HashZero]; value := "2" |}.

(** A proof service that knows bob. *)
Definition bobWorld : World :=
  {| nativeCurrency := zeroAddress;
     getExtensions := fun _ => Some [];
     getClaimForToken := fun _ _ _ => None;
     MINT_FEE := fun _ => None;
     MINT_FEE_MERKLE := fun _ => None;
     getClaimV1 := fun _ _ _ => None;
     getClaimV2 := fun _ _ _ => None;
     fetchMetadata := fun _ => None;
     getStatus := fun _ => None;
     decodeInstanceId := fun _ _ => None;
     axiosGet := fun _ => Some [bobProof] |}.

(** The calls a refresh of [collection0] can make. *)
Definition refreshCall (collection0 : string) (c : Call) : Prop :=
  match c with
  | GetCollectionMints c' s => c' = collection0 /\ s = STANDARD
  | GetExtensions c' => c' = collection0
  | GetClaimForToken _ c' _ => c' = collection0
  | GetClaimV2 _ c' i => c' = collection0 /\ i = None
  | MintFee _ | MintFeeMerkle _ | FetchMetadata _ | LoggerError => True
  | Upsert _ => True
  | _ => False
  end.
(** * Properties *)

(** ** Decimal numerals *)

Lemma bn_toString (n : N) : bn (toString n) = Some n.
Proof.
  unfold bn, toString.
  destruct n as [|p].
  - reflexivity.
  - rewrite NilZero.usu.
    + simpl. f_equal. apply (DecimalN.Unsigned.of_to (Npos p)).
    + apply DecimalPos.Unsigned.to_uint_nonnil.
Qed.

Lemma toString_inj (n m : N) : toString n = toString m -> n = m.
Proof.
  intros H.
  assert (E : bn (toString n) = bn (toString m)) by now rewrite H.
  rewrite !bn_toString in E. congruence.
Qed.

(** ** The ladder run on one extension *)

Lemma claimForToken_inv w c t ci e log r :
  claimForToken w c t e = (log, r) ->
  r = Ok None \/
  exists s fee cm,
    r = Ok (Some [cm]) /\ Emits w c t ci e s fee cm /\ isPerToken s = true.
Proof.
  unfold claimForToken. unfold_monad.
  destruct (getClaimForToken w e c t) as [[iid claim]|] eqn:Eread; simpl;
    [|intros H; inv_pair H; now left].
  destruct (String.eqb (toString iid) "0") eqn:Ezero; simpl;
    [intros H; inv_pair H; now left|].
  destruct (String.eqb (toLowerCase (Claim1155.erc20 claim)) (nativeCurrency w))
    eqn:Eerc; simpl; [|intros H; inv_pair H; now left].
  assert (Hiid : iid <> 0).
  { intros ->. discriminate Ezero. }
  apply String.eqb_eq in Eerc.
  destruct (String.eqb (Claim1155.merkleRoot claim) HashZero) eqn:Eroot; simpl.
  - apply String.eqb_eq in Eroot.
    destruct (MINT_FEE w e) as [fee|] eqn:Efee; simpl;
      intros H; inv_pair H; [right|now left].
    eexists _, _, _. split; [reflexivity|].
    split; [now apply emits_token_public|reflexivity].
  - apply String.eqb_neq in Eroot.
    destruct (MINT_FEE_MERKLE w e) as [fee|] eqn:Efee; simpl;
      [|intros H; inv_pair H; now left].
    destruct (fetchMetadata w (instanceDataUrl (toString iid))) as [tree|]
      eqn:Etree; simpl; intros H; inv_pair H; [right|now left].
    eexists _, _, _. split; [reflexivity|].
    split; [now apply emits_token_allowlist|reflexivity].
Qed.

(** The older shape is read only under a claim-index hint, the newer shape
    always; the newer shape wins when both decode. *)
Lemma readClaimConfig_eq w c ci e :
  readClaimConfig w c ci e =
  (((if truthy ci then [GetClaimV1 e c ci] else []) ++
    [GetClaimV2 e c ci; MintFee e; MintFeeMerkle e])%list,
   Ok match getClaimV2 w e c ci, MINT_FEE w e, MINT_FEE_MERKLE w e with
      | Some claim, Some fee, Some feeMerkle =>
          Some (configOfV2 claim fee feeMerkle)
      | _, _, _ =>
          if truthy ci
          then option_map (configOfV1 w) (getClaimV1 w e c ci)
          else None
      end).
Proof.
  unfold readClaimConfig. unfold_monad.
  destruct (truthy ci); simpl;
    destruct (getClaimV1 w e c ci); simpl;
    destruct (getClaimV2 w e c ci); simpl;
    destruct (MINT_FEE w e); simpl;
    destruct (MINT_FEE_MERKLE w e); reflexivity.
Qed.

Lemma fromClaimConfig_newer w c t ci e claim fee feeMerkle log r :
  getClaimV2 w e c ci = Some claim ->
  MINT_FEE w e = Some fee ->
  MINT_FEE_MERKLE w e = Some feeMerkle ->
  fromClaimConfig w c t ci e (Some (configOfV2 claim fee feeMerkle)) = (log, r) ->
  (exists url, r = Throw (CallFailed (FetchMetadata url))) \/
  exists f cm, r = Ok (Some [cm]) /\ Emits w c t ci e (NewerShape claim) f cm.
Proof.
  intros Hc Hf Hm. unfold fromClaimConfig. unfold_monad.
  rewrite !bn_toString.
  destruct (String.eqb (ClaimV2.merkleRoot claim) HashZero) eqn:Eroot; simpl.
  - apply String.eqb_eq in Eroot. intros H; inv_pair H. right.
    eexists _, _. split; [reflexivity|]. now apply emits_newer_public.
  - apply String.eqb_neq in Eroot.
    destruct (fetchMetadata w (instanceDataUrl (render ci))) as [tree|] eqn:Et;
      simpl; intros H; inv_pair H.
    + right. eexists _, _. split; [reflexivity|].
      now apply emits_newer_allowlist.
    + left. eexists. reflexivity.
Qed.

Lemma fromClaimConfig_older w c t ci e claim log r :
  truthy ci = true ->
  getClaimV1 w e c ci = Some claim ->
  newerShapeReads w c ci e = false ->
  fromClaimConfig w c t ci e (Some (configOfV1 w claim)) = (log, r) ->
  (exists url, r = Throw (CallFailed (FetchMetadata url))) \/
  exists cm, r = Ok (Some [cm]) /\ Emits w c t ci e (OlderShape claim) 0 cm.
Proof.
  intros Ht Hc Hn. unfold fromClaimConfig. unfold_monad.
  rewrite !bn_toString. change (bn "0") with (Some 0). simpl.
  destruct (String.eqb (ClaimV1.merkleRoot claim) HashZero) eqn:Eroot; simpl.
  - apply String.eqb_eq in Eroot. intros H; inv_pair H. right.
    eexists. split; [reflexivity|]. now apply emits_older_public.
  - apply String.eqb_neq in Eroot.
    destruct (fetchMetadata w (instanceDataUrl (render ci))) as [tree|] eqn:Et;
      simpl; intros H; inv_pair H.
    + right. eexists. split; [reflexivity|].
      now apply emits_older_allowlist.
    + left. eexists. reflexivity.
Qed.

Lemma scanExtension_inv w c t ci e log r :
  scanExtension w c t ci e = (log, r) ->
  r = Ok None \/
  (exists url, r = Throw (CallFailed (FetchMetadata url))) \/
  exists s fee cm, r = Ok (Some [cm]) /\ Emits w c t ci e s fee cm.
Proof.
  unfold scanExtension.
  destruct (claimForToken w c t e) as [l1 r1] eqn:E1.
  destruct (claimForToken_inv w c t ci e l1 r1 E1)
    as [-> | (s & fee & cm & -> & Hem & _)].
  - unfold bind at 1. rewrite readClaimConfig_eq. unfold bind at 1.
    destruct (fromClaimConfig w c t ci e _) as [l3 r3] eqn:E3.
    intros H; inv_pair H. revert E3.
    destruct (getClaimV2 w e c ci) as [c2|] eqn:E2;
      [destruct (MINT_FEE w e) as [fee|] eqn:Ef;
       [destruct (MINT_FEE_MERKLE w e) as [feeM|] eqn:Em|]|].
    1: { intros E3.
         destruct (fromClaimConfig_newer w c t ci e c2 fee feeM l3 r E2 Ef Em E3)
           as [Hthrow | (f & cm & -> & Hem)]; [now right; left|].
         right; right. now exists (NewerShape c2), f, cm. }
    all: assert (Hn : newerShapeReads w c ci e = false)
           by (unfold newerShapeReads; rewrite ?E2, ?Ef, ?Em; reflexivity).
    all: destruct (truthy ci) eqn:Et;
           [destruct (getClaimV1 w e c ci) as [c1|] eqn:Ev1|]; simpl;
           try (intros E3; inv_pair E3; now left).
    all: intros E3;
         destruct (fromClaimConfig_older w c t ci e c1 l3 r Et Ev1 Hn E3)
           as [Hthrow | (cm & -> & Hem)]; [now right; left|];
         right; right; now exists (OlderShape c1), 0, cm.
  - unfold_monad. intros H; inv_pair H. right; right. now exists s, fee, cm.
Qed.

Lemma forExtensions_inv w c t ci exts log r :
  forExtensions w c t ci exts = (log, r) ->
  r = Ok None \/
  (exists url, r = Throw (CallFailed (FetchMetadata url))) \/
  exists e s fee cm,
    In e exts /\ r = Ok (Some [cm]) /\ Emits w c t ci e s fee cm.
Proof.
  revert log r. induction exts as [|e exts IH]; intros log r; simpl.
  - intros H; inv_pair H. now left.
  - destruct (scanExtension w c t ci e) as [l1 r1] eqn:E1.
    destruct (scanExtension_inv w c t ci e l1 r1 E1)
      as [-> | [(url & ->) | (s & fee & cm & -> & Hem)]].
    + unfold bind at 1.
      destruct (forExtensions w c t ci exts) as [l2 r2] eqn:E2.
      intros H; inv_pair H.
      destruct (IH l2 r eq_refl) as [-> | [Hthrow | (e' & s & fee & cm & Hin & -> & Hem)]].
      * now left.
      * now right; left.
      * right; right. exists e', s, fee, cm. auto.
    + unfold_monad. intros H; inv_pair H. right; left. now exists url.
    + unfold_monad. intros H; inv_pair H. right; right.
      exists e, s, fee, cm. auto.
Qed.


Lemma extractByCollection_inv w c t ext ci log r :
  extractByCollection w c t ext ci = (log, r) ->
  r = Throw (CallFailed (GetExtensions c)) \/
  (exists url, r = Throw (CallFailed (FetchMetadata url))) \/
  r = Ok [] \/
  exists exts e s fee cm,
    scanned w c ext = Some exts /\ In e exts /\
    r = Ok [cm] /\ Emits w c t ci e s fee cm.
Proof.
  unfold extractByCollection.
  set (first := match ext with Some _ => _ | None => _ end).
  assert (Hfirst : (exists l, first = (l, Throw (CallFailed (GetExtensions c)))) \/
                   exists l exts, first = (l, Ok exts) /\ scanned w c ext = Some exts).
  { subst first. unfold scanned, call, ret.
    destruct ext as [e|]; [destruct (negb (String.eqb e "")); [right; eauto|]|];
      (destruct (getExtensions w c); [right; eauto | left; eauto]). }
  clearbody first.
  destruct Hfirst as [(l & ->) | (l & exts & -> & Hsc)].
  - unfold bind. intros H; inv_pair H. now left.
  - unfold bind at 1.
    destruct (forExtensions w c t ci exts) as [l2 r2] eqn:E2.
    destruct (forExtensions_inv w c t ci exts l2 r2 E2)
      as [-> | [(url & ->) | (e & s & fee & cm & Hin & -> & Hem)]];
      unfold_monad; intros H; inv_pair H.
    + now right; right; left.
    + right; left. now exists url.
    + right; right; right. exists exts, e, s, fee, cm. auto.
Qed.

(** ** The calls of an extraction *)

Lemma fst_bind {A B} (m : M A) (f : A -> M B) :
  fst (bind m f) =
  (fst m ++ match snd m with Ok a => fst (f a) | Throw _ => [] end)%list.
Proof.
  destruct m as [l [a|x]]; simpl.
  - now destruct (f a).
  - now rewrite app_nil_r.
Qed.

Lemma snd_bind {A B} (m : M A) (f : A -> M B) :
  snd (bind m f) =
  match snd m with Ok a => snd (f a) | Throw x => Throw x end.
Proof.
  destruct m as [l [a|x]]; simpl; [|reflexivity]. now destruct (f a).
Qed.

Lemma onlyReads_app l1 l2 :
  onlyReads l1 -> onlyReads l2 -> onlyReads (l1 ++ l2).
Proof.
  unfold onlyReads. intros H1 H2. now rewrite forallb_app, H1, H2.
Qed.

Lemma claimForToken_log w c t e : onlyReads (fst (claimForToken w c t e)).
Proof.
  unfold claimForToken, onlyReads. unfold_monad.
  destruct (getClaimForToken w e c t) as [[iid claim]|]; simpl; [|reflexivity].
  destruct (negb _ && _); simpl; [|reflexivity].
  destruct (String.eqb (Claim1155.merkleRoot claim) HashZero); simpl.
  - destruct (MINT_FEE w e); reflexivity.
  - destruct (MINT_FEE_MERKLE w e); simpl; [|reflexivity].
    destruct (fetchMetadata w _); reflexivity.
Qed.

Lemma fromClaimConfig_log w c t ci e cfg :
  onlyReads (fst (fromClaimConfig w c t ci e cfg)).
Proof.
  unfold fromClaimConfig, onlyReads. unfold_monad.
  destruct cfg as [cfg|]; [|reflexivity].
  destruct (String.eqb (ClaimConfig.merkleRoot cfg) HashZero); simpl.
  - destruct (bn (ClaimConfig.cost cfg)); simpl; [|reflexivity].
    destruct (bn (ClaimConfig.mintFee cfg)); reflexivity.
  - destruct (bn (ClaimConfig.cost cfg)); simpl; [|reflexivity].
    destruct (bn (ClaimConfig.mintFeeMerkle cfg)); simpl; [|reflexivity].
    destruct (fetchMetadata w _); reflexivity.
Qed.

Lemma scanExtension_log w c t ci e :
  onlyReads (fst (scanExtension w c t ci e)).
Proof.
  unfold scanExtension. rewrite fst_bind.
  apply onlyReads_app; [apply claimForToken_log|].
  destruct (snd (claimForToken w c t e)) as [[l|]|x]; try reflexivity.
  rewrite fst_bind. apply onlyReads_app.
  - rewrite readClaimConfig_eq. simpl. now destruct (truthy ci).
  - rewrite readClaimConfig_eq. simpl. apply fromClaimConfig_log.
Qed.

Lemma forExtensions_log w c t ci exts :
  onlyReads (fst (forExtensions w c t ci exts)).
Proof.
  induction exts as [|e exts IH]; simpl; [reflexivity|].
  rewrite fst_bind. apply onlyReads_app; [apply scanExtension_log|].
  destruct (snd (scanExtension w c t ci e)) as [[l|]|x];
    try reflexivity. exact IH.
Qed.

Lemma extractByCollection_log w c t ext ci :
  onlyReads (fst (extractByCollection w c t ext ci)).
Proof.
  unfold extractByCollection. rewrite fst_bind.
  apply onlyReads_app.
  - destruct ext as [e|]; [destruct (negb _); [reflexivity|]|];
      unfold call; reflexivity.
  - destruct (snd _) as [exts|x]; [|reflexivity].
    rewrite fst_bind. apply onlyReads_app; [apply forExtensions_log|].
    destruct (snd (forExtensions w c t ci exts)) as [[l|]|x]; reflexivity.
Qed.

Lemma onlyReads_no_status log cm : onlyReads log -> ~ In (GetStatus cm) log.
Proof.
  unfold onlyReads. rewrite forallb_forall. intros H Hin.
  specialize (H _ Hin). discriminate H.
Qed.

Lemma onlyReads_no_write log : onlyReads log -> writesOf log = [].
Proof.
  unfold onlyReads. induction log as [|c log IH]; simpl; [reflexivity|].
  intros H. apply andb_prop in H as [Hc Hl].
  rewrite (IH Hl). now destruct c.
Qed.

(** ** What [extractByCollection] returns *)

Lemma forExtensions_first w c t ci exts :
  snd (forExtensions w c t ci exts) =
  firstReturn (map (fun e => snd (scanExtension w c t ci e)) exts).
Proof.
  induction exts as [|e exts IH]; [reflexivity|].
  cbn [forExtensions map firstReturn]. rewrite snd_bind.
  destruct (snd (scanExtension w c t ci e)) as [[l|]|x];
    [reflexivity | exact IH | reflexivity].
Qed.

Lemma extractByCollection_first w c t ext ci :
  snd (extractByCollection w c t ext ci) =
  match scanned w c ext with
  | None => Throw (CallFailed (GetExtensions c))
  | Some exts =>
      match firstReturn
              (map (fun e => snd (scanExtension w c t ci e)) exts) with
      | Ok (Some l) => Ok l
      | Ok None => Ok []
      | Throw x => Throw x
      end
  end.
Proof.
  unfold extractByCollection, scanned. rewrite snd_bind.
  assert (Hscan : forall exts,
            snd (r <- forExtensions w c t ci exts ;;
                 match r with
                 | Some l => ret l
                 | None =>
                     mapM (fun cm =>
                             sr <- call (GetStatus cm) (getStatus w cm) ;;
                             ret (setStatus cm (fst sr) (snd sr))) []
                 end) =
            match firstReturn
                    (map (fun e => snd (scanExtension w c t ci e)) exts) with
            | Ok (Some l) => Ok l
            | Ok None => Ok []
            | Throw x => Throw x
            end).
  { intros exts. rewrite snd_bind, forExtensions_first.
    now destruct (firstReturn _) as [[l|]|x]. }
  destruct ext as [e|]; [destruct (negb (String.eqb e "")); [apply Hscan|]|];
    unfold call; simpl; (destruct (getExtensions w c); [apply Hscan|reflexivity]).
Qed.

(** C10: [extractByCollection] returns the empty sequence or a singleton,
    every record it returns has status open and no status reason, and the
    status resolver is never called; what it returns is what the first
    extension whose ladder returns or rejects gives, and nothing is kept
    from one extension to the next.  The call can also reject, and then
    only with the failure of the extension enumeration or of the metadata
    service; it is total, so one of the two always happens. *)
Theorem extractByCollection_at_most_one_open :
  forall w collection0 tokenId0 extension claimIndex,
    snd (extractByCollection w collection0 tokenId0 extension claimIndex) =
      match scanned w collection0 extension with
      | None => Throw (CallFailed (GetExtensions collection0))
      | Some exts =>
          match firstReturn
                  (map (fun e => snd (scanExtension w collection0 tokenId0
                                        claimIndex e)) exts) with
          | Ok (Some l) => Ok l
          | Ok None => Ok []
          | Throw x => Throw x
          end
      end /\
    (forall cm,
       ~ In (GetStatus cm)
            (fst (extractByCollection w collection0 tokenId0 extension
                    claimIndex))) /\
    match snd (extractByCollection w collection0 tokenId0 extension claimIndex)
    with
    | Ok l =>
        (l = [] \/ exists cm, l = [cm]) /\
        Forall (fun cm => status cm = open /\ statusReason cm = None) l
    | Throw x =>
        x = CallFailed (GetExtensions collection0) \/
        exists url, x = CallFailed (FetchMetadata url)
    end.
Proof.
  intros w c t ext ci.
  split; [apply extractByCollection_first|].
  split; [intros cm; apply onlyReads_no_status, extractByCollection_log|].
  destruct (extractByCollection w c t ext ci) as [log r] eqn:E.
  destruct (extractByCollection_inv w c t ext ci log r E)
    as [-> | [(url & ->) | [-> | (exts & e & s & fee & cm & _ & _ & -> & Hem)]]];
    simpl.
  - now left.
  - right. now exists url.
  - split; [now left | constructor].
  - split; [right; now exists cm|].
    constructor; [|constructor]. destruct Hem; split; reflexivity.
Qed.

(** C2: a record is [public] exactly when the Merkle root of the claim it
    is built from is the zero hash and [allowlist] otherwise, and
    [allowlistId] is set, to that root, exactly on the allowlist records. *)
Theorem kind_follows_merkle_root :
  forall w collection0 tokenId0 extension claimIndex log l cm,
    extractByCollection w collection0 tokenId0 extension claimIndex
      = (log, Ok l) ->
    In cm l ->
    exists e s fee,
      Emits w collection0 tokenId0 claimIndex e s fee cm /\
      kind cm =
        (if String.eqb (rootOf s) HashZero then public else allowlist) /\
      allowlistId cm =
        (if String.eqb (rootOf s) HashZero then None else Some (rootOf s)).
Proof.
  intros w c t ext ci log l cm E Hin.
  destruct (extractByCollection_inv w c t ext ci log _ E)
    as [H | [(url & H) | [H | (exts & e & s & fee & cm' & _ & _ & H & Hem)]]];
    try discriminate; inv_pair H; [contradiction|].
  destruct Hin as [<- | []].
  exists e, s, fee. split; [exact Hem|].
  destruct Hem; simpl;
    repeat match goal with
    | H : _ = HashZero |- _ => rewrite H
    | H : _ <> HashZero |- _ => apply String.eqb_neq in H; rewrite H
    end; split; reflexivity.
Qed.

Lemma kind_follows_merkle_root_witness :
  exists e s fee,
    Emits bothWorld aCollection "7" (Some "1") e s fee
      (allowlistIndexMint bothWorld aCollection (Some "1") anExtension
         (configOfV2 (newerClaim aRoot 200) 5 9) "209" (Some "tree-1")) /\
    kind (allowlistIndexMint bothWorld aCollection (Some "1") anExtension
            (configOfV2 (newerClaim aRoot 200) 5 9) "209" (Some "tree-1")) =
      (if String.eqb (rootOf s) HashZero then public else allowlist) /\
    allowlistId
      (allowlistIndexMint bothWorld aCollection (Some "1") anExtension
         (configOfV2 (newerClaim aRoot 200) 5 9) "209" (Some "tree-1")) =
      (if String.eqb (rootOf s) HashZero then None else Some (rootOf s)).
Proof.
  eapply (kind_follows_merkle_root bothWorld aCollection "7" None (Some "1")).
  - vm_compute. reflexivity.
  - left. reflexivity.
Defined.

(** ** Price *)

(** C1, as stated, fails: a claim read in the older [getClaim] shape is
    priced at its bare on-chain cost. *)
Lemma price_is_bare_cost_under_older_shape :
  exists log,
    extractByCollection olderWorld aCollection "7" None (Some "1")
      = (log,
         Ok [publicIndexMint olderWorld aCollection "7" (Some "1") anExtension
               (configOfV1 olderWorld (olderClaim HashZero 100)) "100"]) /\
    getClaimV1 olderWorld anExtension aCollection (Some "1")
      = Some (olderClaim HashZero 100) /\
    ClaimV1.cost (olderClaim HashZero 100) = 100 /\
    price (publicIndexMint olderWorld aCollection "7" (Some "1") anExtension
             (configOfV1 olderWorld (olderClaim HashZero 100)) "100")
      = toString (ClaimV1.cost (olderClaim HashZero 100)).
Proof.
  eexists. split; [vm_compute; reflexivity|].
  repeat split.
Qed.

(** C1, amended: the price of every returned record is the decimal numeral
    of the on-chain cost plus the fee for the sale kind, [MINT_FEE] for a
    public and [MINT_FEE_MERKLE] for an allowlist sale when the claim is
    read per token or in the newer [getClaim] shape, and 0 when it is read
    in the older shape; the price is the bare cost exactly when that fee
    is 0. *)
Theorem price_is_cost_plus_fee :
  forall w collection0 tokenId0 extension claimIndex log l cm,
    extractByCollection w collection0 tokenId0 extension claimIndex
      = (log, Ok l) ->
    In cm l ->
    exists e s fee,
      Emits w collection0 tokenId0 claimIndex e s fee cm /\
      feeFor w e s = Some fee /\
      price cm = toString (costOf s + fee) /\
      (price cm = toString (costOf s) <-> fee = 0).
Proof.
  intros w c t ext ci log l cm E Hin.
  destruct (extractByCollection_inv w c t ext ci log _ E)
    as [H | [(url & H) | [H | (exts & e & s & fee & cm' & _ & _ & H & Hem)]]];
    try discriminate; inv_pair H; [contradiction|].
  destruct Hin as [<- | []].
  exists e, s, fee. split; [exact Hem|].
  assert (Hbare : forall a b : N, toString (a + b) = toString a <-> b = 0).
  { intros a b. split.
    - intros Hs. apply toString_inj in Hs. lia.
    - intros ->. now rewrite N.add_0_r. }
  destruct Hem; simpl;
    repeat match goal with
    | H : _ = HashZero |- _ => rewrite H
    | H : _ <> HashZero |- _ => apply String.eqb_neq in H; rewrite H
    end; simpl; auto.
Qed.

Lemma price_is_cost_plus_fee_witness :
  exists e s fee,
    Emits tokenWorld aCollection "7" None e s fee
      (publicTokenMint tokenWorld aCollection "7" anExtension "3"
         (tokenClaim HashZero 100) "105") /\
    feeFor tokenWorld e s = Some fee /\
    price (publicTokenMint tokenWorld aCollection "7" anExtension "3"
             (tokenClaim HashZero 100) "105") = toString (costOf s + fee) /\
    (price (publicTokenMint tokenWorld aCollection "7" anExtension "3"
              (tokenClaim HashZero 100) "105") = toString (costOf s)
     <-> fee = 0).
Proof.
  eapply (price_is_cost_plus_fee tokenWorld aCollection "7" None None).
  - vm_compute. reflexivity.
  - left. reflexivity.
Defined.

(** ** Caps and times *)

Lemma capOf_spec (x : N) :
  capOf x = if x =? 0 then None else Some (toString x).
Proof.
  unfold capOf. destruct (N.eqb_spec x 0) as [->|Hx]; [reflexivity|].
  destruct (N.ltb_spec 0 x); [reflexivity | lia].
Qed.

Lemma timeOf_spec (x : N) : timeOf x = if x =? 0 then None else Some x.
Proof.
  unfold timeOf, toSafeTimestamp. now destruct (x =? 0).
Qed.

(** C7: an on-chain start or end date of 0 gives an absent time and a
    non-zero date gives that same number; an on-chain wallet or total
    maximum of 0 gives an absent cap and a non-zero one gives its decimal
    numeral.  In particular no time is 0 and no cap is the numeral 0. *)
Theorem zero_normalizes_to_absent :
  forall w collection0 tokenId0 extension claimIndex log l cm,
    extractByCollection w collection0 tokenId0 extension claimIndex
      = (log, Ok l) ->
    In cm l ->
    exists e s fee,
      Emits w collection0 tokenId0 claimIndex e s fee cm /\
      startTime cm =
        (if startDateOf s =? 0 then None else Some (startDateOf s)) /\
      endTime cm = (if endDateOf s =? 0 then None else Some (endDateOf s)) /\
      maxMintsPerWallet cm =
        (if walletMaxOf s =? 0 then None
         else Some (toString (walletMaxOf s))) /\
      maxSupply cm =
        (if totalMaxOf s =? 0 then None else Some (toString (totalMaxOf s))) /\
      startTime cm <> Some 0 /\ endTime cm <> Some 0 /\
      maxMintsPerWallet cm <> Some "0" /\ maxSupply cm <> Some "0".
Proof.
  intros w c t ext ci log l cm E Hin.
  destruct (extractByCollection_inv w c t ext ci log _ E)
    as [H | [(url & H) | [H | (exts & e & s & fee & cm' & _ & _ & H & Hem)]]];
    try discriminate; inv_pair H; [contradiction|].
  destruct Hin as [<- | []].
  exists e, s, fee. split; [exact Hem|].
  assert (Ht : forall x, timeOf x <> Some 0).
  { intros x. rewrite timeOf_spec.
    destruct (N.eqb_spec x 0); congruence. }
  assert (Hc : forall x, capOf x <> Some "0").
  { intros x. rewrite capOf_spec.
    destruct (N.eqb_spec x 0) as [|Hx]; [congruence|].
    intros [= Hs]. apply Hx. now apply toString_inj. }
  destruct Hem; simpl; rewrite <- !timeOf_spec, <- !capOf_spec; auto 10.
Qed.

Lemma zero_normalizes_to_absent_witness :
  exists e s fee,
    Emits tokenWorld aCollection "7" None e s fee
      (publicTokenMint tokenWorld aCollection "7" anExtension "3"
         (tokenClaim HashZero 100) "105") /\
    None = (if startDateOf s =? 0 then None else Some (startDateOf s)) /\
    Some 1700000000 =
      (if endDateOf s =? 0 then None else Some (endDateOf s)) /\
    None =
      (if walletMaxOf s =? 0 then None else Some (toString (walletMaxOf s))) /\
    Some "10" =
      (if totalMaxOf s =? 0 then None else Some (toString (totalMaxOf s))) /\
    None <> Some 0 /\ Some 1700000000 <> Some 0 /\
    None <> Some "0" /\ Some "10" <> Some "0".
Proof.
  eapply (zero_normalizes_to_absent tokenWorld aCollection "7" None None).
  - vm_compute. reflexivity.
  - left. reflexivity.
Defined.

(** ** The collection-wide fallback *)

(** C5: in the collection-wide fallback the older shape is read only under
    a claim-index hint and the newer shape with its two fees always; the
    configuration kept is the newer shape's whenever its reads succeed,
    whatever the older shape answered; and when the per-token attempt falls
    through, the ladder returns what that configuration gives. *)
Theorem newer_shape_takes_precedence :
  forall w collection0 tokenId0 claimIndex extension,
    fst (readClaimConfig w collection0 claimIndex extension) =
      ((if truthy claimIndex
        then [GetClaimV1 extension collection0 claimIndex] else []) ++
       [GetClaimV2 extension collection0 claimIndex;
        MintFee extension; MintFeeMerkle extension])%list /\
    snd (readClaimConfig w collection0 claimIndex extension) =
      Ok (preferredConfig w collection0 claimIndex extension) /\
    (snd (claimForToken w collection0 tokenId0 extension) = Ok None ->
     snd (scanExtension w collection0 tokenId0 claimIndex extension) =
     snd (fromClaimConfig w collection0 tokenId0 claimIndex extension
            (preferredConfig w collection0 claimIndex extension))).
Proof.
  intros w c t ci e. rewrite readClaimConfig_eq. simpl.
  split; [reflexivity|]. split; [reflexivity|].
  intros Hfall. unfold scanExtension.
  destruct (claimForToken w c t e) as [l1 r1]. simpl in Hfall. subst r1.
  unfold bind at 1. rewrite readClaimConfig_eq. unfold bind at 1.
  fold (preferredConfig w c ci e).
  now destruct (fromClaimConfig w c t ci e (preferredConfig w c ci e)).
Qed.

Lemma newer_shape_takes_precedence_witness :
  getClaimV1 bothWorld anExtension aCollection (Some "1")
    = Some (olderClaim aRoot 100) /\
  preferredConfig bothWorld aCollection (Some "1") anExtension
    = Some (configOfV2 (newerClaim aRoot 200) 5 9) /\
  snd (scanExtension bothWorld aCollection "7" (Some "1") anExtension) =
  Ok (Some [allowlistIndexMint bothWorld aCollection (Some "1") anExtension
              (configOfV2 (newerClaim aRoot 200) 5 9) "209" (Some "tree-1")]).
Proof.
  split; [reflexivity|]. split; [reflexivity|].
  destruct (newer_shape_takes_precedence bothWorld aCollection "7"
              (Some "1") anExtension) as (_ & _ & H).
  rewrite H; [|reflexivity]. vm_compute. reflexivity.
Defined.

(** ** [extractByTx] *)

(** C6: on an input that starts with the [mint] selector and decodes to an
    instance id, [extractByTx] is [extractByCollection] with the
    transaction's target as extension and that id as claim index, calls
    and result alike; on an input that starts with neither selector it
    returns the empty sequence and calls nothing. *)
Theorem extractByTx_delegates :
  forall w collection0 tokenId0 tx,
    (forall instanceId,
       String.prefix "0xfa2b068f" (tx_data tx) = true ->
       decodeInstanceId w "mint" (tx_data tx) = Some instanceId ->
       extractByTx w collection0 tokenId0 tx =
       extractByCollection w collection0 tokenId0 (Some (tx_to tx))
         (Some (toString instanceId))) /\
    (String.prefix "0xfa2b068f" (tx_data tx) = false ->
     String.prefix "0x26c858a4" (tx_data tx) = false ->
     extractByTx w collection0 tokenId0 tx = ([], Ok [])).
Proof.
  intros w c t tx. unfold extractByTx. simpl existsb. split.
  - intros iid Hp Hd. rewrite Hp, Hd. reflexivity.
  - intros H1 H2. rewrite H1, H2. reflexivity.
Qed.

Lemma extractByTx_delegates_witness :
  extractByTx newerWorld aCollection "7" mintTx =
  extractByCollection newerWorld aCollection "7" (Some anExtension)
    (Some "1") /\
  extractByTx newerWorld aCollection "7" otherTx = ([], Ok []).
Proof.
  split.
  - apply (proj1 (extractByTx_delegates newerWorld aCollection "7" mintTx) 1);
      reflexivity.
  - apply (proj2 (extractByTx_delegates newerWorld aCollection "7" otherTx));
      reflexivity.
Defined.

(** ** The token id of a record *)

(** C8 (defect in the code): a public record built from a collection-wide
    claim carries the caller's token id, whereas the allowlist record built
    from the same kind of claim carries none. *)
Theorem public_index_mint_carries_tokenId :
  snd (extractByCollection newerWorld aCollection "7" None (Some "1")) =
    Ok [publicIndexMint newerWorld aCollection "7" (Some "1") anExtension
          (configOfV2 (newerClaim HashZero 100) 5 9) "105"] /\
  getClaimForToken newerWorld anExtension aCollection "7" = None /\
  tokenId (publicIndexMint newerWorld aCollection "7" (Some "1") anExtension
             (configOfV2 (newerClaim HashZero 100) 5 9) "105") = Some "7" /\
  snd (extractByCollection bothWorld aCollection "7" None (Some "1")) =
    Ok [allowlistIndexMint bothWorld aCollection (Some "1") anExtension
          (configOfV2 (newerClaim aRoot 200) 5 9) "209" (Some "tree-1")] /\
  tokenId (allowlistIndexMint bothWorld aCollection (Some "1") anExtension
             (configOfV2 (newerClaim aRoot 200) 5 9) "209" (Some "tree-1"))
    = None.
Proof.
  split; [vm_compute; reflexivity|].
  split; [reflexivity|]. split; [reflexivity|].
  split; [vm_compute; reflexivity | reflexivity].
Qed.

(** ** The proof cache *)

(** C9: the cache key is made of the record's collection, stage and
    tokenId, joined by dashes, and of nothing else.  A miss whose fetch
    yields an entry stores it under that key for 3600 seconds, and any
    later call for the same collection, stage and tokenId before that time
    has passed, whatever the claimant and whatever the proof service would
    answer, returns the stored value after a single cache read.  A miss
    whose fetch yields no entry returns nothing and leaves the cache as it
    was. *)
Theorem proof_cache_hit_within_ttl :
  forall w now redis cm address,
    cacheKeyOf cm =
      collection cm ++ "-" ++ stage cm ++ "-" ++ render (tokenId cm) /\
    (forall info0 v others,
       redis_get now redis (cacheKeyOf cm) = None ->
       info (details cm) = Some info0 ->
       axiosGet w (merkleInfoUrl info0 address) = Some (v :: others) ->
       generateProofValue w now redis cm address =
         (([RedisGet (cacheKeyOf cm); AxiosGet (merkleInfoUrl info0 address);
            RedisSet (cacheKeyOf cm) 3600], Ok (Some v)),
          <[cacheKeyOf cm := (JSON_stringify v, now + 3600)]> redis) /\
       forall w' now' cm' address',
         collection cm' = collection cm ->
         stage cm' = stage cm ->
         tokenId cm' = tokenId cm ->
         now <= now' < now + 3600 ->
         generateProofValue w' now'
           (<[cacheKeyOf cm := (JSON_stringify v, now + 3600)]> redis)
           cm' address' =
         (([RedisGet (cacheKeyOf cm)], Ok (Some v)),
          <[cacheKeyOf cm := (JSON_stringify v, now + 3600)]> redis)) /\
    (forall info0,
       redis_get now redis (cacheKeyOf cm) = None ->
       info (details cm) = Some info0 ->
       axiosGet w (merkleInfoUrl info0 address) = Some [] ->
       generateProofValue w now redis cm address =
         (([RedisGet (cacheKeyOf cm); AxiosGet (merkleInfoUrl info0 address)],
           Ok None), redis)).
Proof.
  intros w now redis cm address. split; [reflexivity|]. split.
  - intros info0 v others Hmiss Hinfo Hget. split.
    + unfold generateProofValue. rewrite Hmiss, Hinfo. simpl.
      rewrite Hget. reflexivity.
    + intros w' now' cm' address' Hc Hs Ht [_ Hlt].
      assert (Hk : cacheKeyOf cm' = cacheKeyOf cm).
      { unfold cacheKeyOf. now rewrite Hc, Hs, Ht. }
      unfold generateProofValue. rewrite Hk.
      unfold redis_get. rewrite lookup_insert_eq.
      apply N.ltb_lt in Hlt. rewrite Hlt. reflexivity.
  - intros info0 Hmiss Hinfo Hget.
    unfold generateProofValue. rewrite Hmiss, Hinfo. simpl.
    rewrite Hget. reflexivity.
Qed.

Lemma proof_cache_hit_within_ttl_witness :
  generateProofValue tokenWorld 1000 ∅ allowlistStage alice =
    (([RedisGet (cacheKeyOf allowlistStage);
       AxiosGet (merkleInfoUrl {| merkleTreeId := Some "tree-1" |} alice);
       RedisSet (cacheKeyOf allowlistStage) 3600], Ok (Some aliceProof)),
     <[cacheKeyOf allowlistStage := (JSON_stringify aliceProof, 4600)]> ∅) /\
  generateProofValue strangerWorld 4599
    (<[cacheKeyOf allowlistStage := (JSON_stringify aliceProof, 4600)]> ∅)
    allowlistStage bob =
    (([RedisGet (cacheKeyOf allowlistStage)], Ok (Some aliceProof)),
     <[cacheKeyOf allowlistStage := (JSON_stringify aliceProof, 4600)]> ∅) /\
  generateProofValue strangerWorld 1000 ∅ allowlistStage bob =
    (([RedisGet (cacheKeyOf allowlistStage);
       AxiosGet (merkleInfoUrl {| merkleTreeId := Some "tree-1" |} bob)],
      Ok None), ∅).
Proof.
  destruct (proof_cache_hit_within_ttl tokenWorld 1000 ∅ allowlistStage alice)
    as (_ & Hfetch & _).
  destruct (Hfetch {| merkleTreeId := Some "tree-1" |} aliceProof [])
    as [Hfirst Hsecond]; [reflexivity | reflexivity | reflexivity |].
  destruct (proof_cache_hit_within_ttl strangerWorld 1000 ∅ allowlistStage bob)
    as (_ & _ & Hnone).
  split; [exact Hfirst|]. split.
  - apply (Hsecond strangerWorld 4599 allowlistStage bob);
      [reflexivity | reflexivity | reflexivity | lia].
  - apply (Hnone {| merkleTreeId := Some "tree-1" |}); reflexivity.
Defined.

(** ** Reconciliation *)

Lemma writesOf_app l1 l2 : writesOf (l1 ++ l2) = (writesOf l1 ++ writesOf l2)%list.
Proof. unfold writesOf. apply flat_map_app. Qed.

Lemma upsertAll_run (l : list CollectionMint) :
  snd (forEachM simulateAndUpsertCollectionMint l) = Ok tt /\
  writesOf (fst (forEachM simulateAndUpsertCollectionMint l)) = l.
Proof.
  induction l as [|cm l [IHr IHw]]; [now split|].
  cbn [forEachM]. rewrite snd_bind, fst_bind. simpl. rewrite IHr, IHw.
  now split.
Qed.

Lemma closeMissing_run (latest existing : list CollectionMint) :
  let closing := fun ex =>
    if missingFrom latest ex
    then simulateAndUpsertCollectionMint (closedCopy ex) else ret tt in
  snd (forEachM closing existing) = Ok tt /\
  writesOf (fst (forEachM closing existing)) =
    map closedCopy (List.filter (missingFrom latest) existing).
Proof.
  intros closing. induction existing as [|ex existing [IHr IHw]];
    [now split|].
  cbn [forEachM]. rewrite snd_bind, fst_bind, writesOf_app.
  assert (Hhead : snd (closing ex) = Ok tt /\
                  writesOf (fst (closing ex)) =
                    if missingFrom latest ex then [closedCopy ex] else []).
  { subst closing. cbv beta. now destruct (missingFrom latest ex). }
  destruct Hhead as [-> ->]. rewrite IHr, IHw. cbn [List.filter].
  now destruct (missingFrom latest ex).
Qed.

Lemma refreshPass_run w c existing t :
  snd (refreshPass w c existing t) =
    (if extracts w c t then Ok tt
     else match snd (extractByCollection w c t None None) with
          | Throw x => Throw x
          | Ok _ => Ok tt
          end) /\
  writesOf (fst (refreshPass w c existing t)) =
    (if extracts w c t
     then extracted w c t ++
          map closedCopy (List.filter (missingFrom (extracted w c t)) existing)
     else [])%list.
Proof.
  unfold refreshPass, extracts, extracted.
  rewrite snd_bind, fst_bind, writesOf_app.
  rewrite (onlyReads_no_write _ (extractByCollection_log w c t None None)).
  destruct (snd (extractByCollection w c t None None)) as [latest|x];
    [|now split].
  rewrite snd_bind, fst_bind, writesOf_app.
  destruct (upsertAll_run latest) as [-> ->].
  destruct (closeMissing_run latest existing) as [Hr Hw].
  cbv zeta in Hr, Hw. rewrite Hr, Hw. now split.
Qed.

Lemma refreshPasses_writes w c existing tokens :
  writesOf (fst (forEachM (refreshPass w c existing) tokens)) =
  flat_map
    (fun t =>
       extracted w c t ++
       map closedCopy (List.filter (missingFrom (extracted w c t)) existing))%list
    (completed w c tokens).
Proof.
  induction tokens as [|t tokens IH]; [reflexivity|].
  cbn [forEachM completed]. rewrite fst_bind, writesOf_app.
  destruct (refreshPass_run w c existing t) as [Hr Hw]. rewrite Hr, Hw.
  destruct (extracts w c t) eqn:Eok; simpl.
  - now rewrite IH.
  - unfold extracts in Eok.
    destruct (snd (extractByCollection w c t None None)); [discriminate|].
    reflexivity.
Qed.

Lemma refresh_writes w db c :
  writesOf (fst (refreshByCollection w db c)) =
  flat_map
    (fun t =>
       extracted w c t ++
       map closedCopy
         (List.filter (missingFrom (extracted w c t))
            (getCollectionMints db c STANDARD)))%list
    (completed w c (truthyTokenIds (getCollectionMints db c STANDARD))).
Proof.
  unfold refreshByCollection. rewrite fst_bind. simpl.
  apply refreshPasses_writes.
Qed.

(** C3 (defect in the code): the loop that closes stored records sits
    inside the loop over the stored token ids, and compares every stored
    record with what was extracted for one token id only.  With the records
    of tokens 7 and 8 stored and both still on sale, each record is returned
    by the extraction for its own token id, and yet the pass of token 7
    writes the record of token 8 closed and the pass of token 8 writes the
    record of token 7 closed.  The record closed in the last pass stays
    closed: that of the token stored first, whichever it is.  With neither
    token on sale any more, the same loop closes each record once per pass,
    twice in one refresh. *)
Theorem refresh_closes_record_on_sale :
  extracted twoTokenWorld aCollection "7" = [mint7] /\
  extracted twoTokenWorld aCollection "8" = [mint8] /\
  writesOf (fst (refreshByCollection twoTokenWorld [mint7; mint8] aCollection))
    = [mint7; closedCopy mint8; mint8; closedCopy mint7] /\
  refreshed twoTokenWorld [mint7; mint8] aCollection
    = [closedCopy mint7; mint8] /\
  writesOf (fst (refreshByCollection twoTokenWorld [mint8; mint7] aCollection))
    = [mint8; closedCopy mint7; mint7; closedCopy mint8] /\
  refreshed twoTokenWorld [mint8; mint7] aCollection
    = [closedCopy mint8; mint7] /\
  status (closedCopy mint7) = closed /\
  status (closedCopy mint8) = closed /\
  writesOf (fst (refreshByCollection goneWorld [mint7; mint8] aCollection))
    = [closedCopy mint7; closedCopy mint8; closedCopy mint7; closedCopy mint8].
Proof.
  repeat split; vm_compute; reflexivity.
Qed.

(** ** Refreshing twice *)

Lemma opt_eqb_eq (a b : option string) : opt_eqb a b = true <-> a = b.
Proof.
  destruct a as [x|], b as [y|]; simpl; try (split; congruence).
  rewrite String.eqb_eq. split; congruence.
Qed.

Lemma sameRow_eq (a b : CollectionMint) :
  sameRow a b = true <-> rowKey a = rowKey b.
Proof.
  unfold sameRow, rowKey.
  rewrite !andb_true_iff, !String.eqb_eq, opt_eqb_eq.
  split; [intros [[[-> ->] ->] ->]; reflexivity | intros [= -> -> -> ->]; auto].
Qed.

Lemma sameRow_key_l (a a' b : CollectionMint) :
  rowKey a = rowKey a' -> sameRow a b = sameRow a' b.
Proof.
  unfold sameRow, rowKey. intros [= -> -> -> ->]. reflexivity.
Qed.

Lemma sameRow_key_r (a b b' : CollectionMint) :
  rowKey b = rowKey b' -> sameRow a b = sameRow a b'.
Proof.
  unfold sameRow, rowKey. intros [= -> -> -> ->]. reflexivity.
Qed.

Lemma rowKey_closedCopy (cm : CollectionMint) :
  rowKey (closedCopy cm) = rowKey cm.
Proof. reflexivity. Qed.

Lemma closedCopy_idem (cm : CollectionMint) :
  closedCopy (closedCopy cm) = closedCopy cm.
Proof. reflexivity. Qed.

Lemma lastMatch_key (row row' : CollectionMint) ws :
  rowKey row = rowKey row' -> lastMatch row ws = lastMatch row' ws.
Proof.
  intros Hk. induction ws as [|cm ws IH]; simpl; [reflexivity|].
  now rewrite IH, (sameRow_key_r cm row row' Hk).
Qed.

Lemma lastMatch_sameRow (row : CollectionMint) ws cm :
  lastMatch row ws = Some cm -> rowKey cm = rowKey row.
Proof.
  induction ws as [|x ws IH]; simpl; [discriminate|].
  destruct (lastMatch row ws) as [y|].
  - intros [= <-]. now apply IH.
  - destruct (sameRow x row) eqn:E; [|discriminate].
    intros [= <-]. now apply sameRow_eq.
Qed.

Lemma rowKey_settle ws (row : CollectionMint) :
  rowKey (settle ws row) = rowKey row.
Proof.
  unfold settle. destruct (lastMatch row ws) as [cm|] eqn:E; [|reflexivity].
  now apply lastMatch_sameRow in E.
Qed.

Lemma settle_cons cm ws (row : CollectionMint) :
  settle (cm :: ws) row = settle ws (if sameRow cm row then cm else row).
Proof.
  unfold settle. simpl.
  assert (Hk : rowKey (if sameRow cm row then cm else row) = rowKey row).
  { destruct (sameRow cm row) eqn:E; [now apply sameRow_eq | reflexivity]. }
  rewrite (lastMatch_key _ _ ws Hk).
  destruct (lastMatch row ws); [reflexivity|].
  now destruct (sameRow cm row).
Qed.

Lemma existsb_sameRow_map (f : CollectionMint -> CollectionMint) x db :
  (forall row, rowKey (f row) = rowKey row) ->
  existsb (sameRow x) (map f db) = existsb (sameRow x) db.
Proof.
  intros Hf. induction db as [|row db IH]; simpl; [reflexivity|].
  now rewrite IH, (sameRow_key_r x _ _ (Hf row)).
Qed.

Lemma upsert_present cm db :
  existsb (sameRow cm) db = true ->
  upsert cm db = map (fun row => if sameRow cm row then cm else row) db.
Proof. unfold upsert. now intros ->. Qed.

Lemma applyUpserts_writes log db :
  applyUpserts log db = fold_left (fun d cm => upsert cm d) (writesOf log) db.
Proof.
  revert db. induction log as [|c log IH]; intros db; simpl; [reflexivity|].
  destruct c; simpl; apply IH.
Qed.

(** Writes that all find their row leave every row at the last write to
    its key. *)
Lemma upserts_settle ws db :
  Forall (fun cm => existsb (sameRow cm) db = true) ws ->
  fold_left (fun d cm => upsert cm d) ws db = map (settle ws) db.
Proof.
  revert db. induction ws as [|cm ws IH]; intros db Hall; simpl.
  - unfold settle. simpl. now rewrite map_id.
  - inversion Hall as [|? ? Hcm Hws]; subst.
    rewrite (upsert_present cm db Hcm).
    assert (Hkeep : forall row,
              rowKey (if sameRow cm row then cm else row) = rowKey row).
    { intros row. destruct (sameRow cm row) eqn:E;
        [now apply sameRow_eq | reflexivity]. }
    rewrite IH.
    + rewrite map_map. apply map_ext. intros row. now rewrite settle_cons.
    + eapply List.Forall_impl; [|exact Hws]. cbv beta. intros x Hx.
      now rewrite (existsb_sameRow_map _ x db Hkeep).
Qed.

Section KeyPreserving.

Variable f : CollectionMint -> CollectionMint.
Hypothesis f_key : forall row, rowKey (f row) = rowKey row.

Lemma getCollectionMints_map db c s :
  getCollectionMints (map f db) c s = map f (getCollectionMints db c s).
Proof.
  unfold getCollectionMints.
  induction db as [|row db IH]; simpl; [reflexivity|].
  pose proof (f_key row) as Hk. unfold rowKey in Hk.
  injection Hk as Hc Hs _ _. rewrite Hc, Hs.
  destruct (_ && _); simpl; now rewrite IH.
Qed.

Lemma truthyTokenIds_map l :
  truthyTokenIds (map f l) = truthyTokenIds l.
Proof.
  unfold truthyTokenIds.
  induction l as [|row l IH]; simpl; [reflexivity|].
  pose proof (f_key row) as Hk. unfold rowKey in Hk.
  injection Hk as _ _ _ Ht. now rewrite Ht, IH.
Qed.

Lemma missingFrom_map latest row :
  missingFrom latest (f row) = missingFrom latest row.
Proof.
  unfold missingFrom. f_equal.
  pose proof (f_key row) as Hk. unfold rowKey in Hk.
  injection Hk as Hc _ Hs Ht.
  induction latest as [|x latest IH]; simpl; [reflexivity|].
  unfold sameTriple at 1 3. now rewrite Hc, Hs, Ht, IH.
Qed.

Lemma filter_missing_map latest l :
  List.filter (missingFrom latest) (map f l) =
  map f (List.filter (missingFrom latest) l).
Proof.
  induction l as [|row l IH]; simpl; [reflexivity|].
  rewrite missingFrom_map. destruct (missingFrom latest row); simpl;
    now rewrite IH.
Qed.

Lemma repeats_key a b : repeats f a b -> rowKey a = rowKey b.
Proof.
  intros [-> | (x & -> & ->)]; [reflexivity|].
  now rewrite !rowKey_closedCopy, f_key.
Qed.

Lemma repeats_status a b : repeats f a b -> status a = status b.
Proof. intros [-> | (x & -> & ->)]; reflexivity. Qed.

Lemma repeats_refl l : Forall2 (repeats f) l l.
Proof. induction l; constructor; [now left | assumption]. Qed.

Lemma repeats_closed l :
  Forall2 (repeats f) (map closedCopy l) (map closedCopy (map f l)).
Proof.
  induction l as [|x l IH]; simpl; constructor; [|exact IH].
  right. now exists x.
Qed.

Lemma repeats_passes (latestOf : string -> list CollectionMint)
    existing tokens :
  Forall2 (repeats f)
    (flat_map
       (fun t => latestOf t ++
                 map closedCopy
                   (List.filter (missingFrom (latestOf t)) existing))%list
       tokens)
    (flat_map
       (fun t => latestOf t ++
                 map closedCopy
                   (List.filter (missingFrom (latestOf t))
                      (map f existing)))%list
       tokens).
Proof.
  induction tokens as [|t tokens IH]; simpl; [constructor|].
  apply Forall2_app; [|exact IH].
  apply Forall2_app; [apply repeats_refl|].
  rewrite filter_missing_map. apply repeats_closed.
Qed.

Lemma repeats_lastMatch row ws1 ws2 :
  Forall2 (repeats f) ws1 ws2 ->
  match lastMatch row ws1, lastMatch row ws2 with
  | Some a, Some b => repeats f a b
  | None, None => True
  | _, _ => False
  end.
Proof.
  induction 1 as [|a b ws1 ws2 Hab _ IH]; simpl; [exact I|].
  destruct (lastMatch row ws1) as [a'|], (lastMatch row ws2) as [b'|];
    try contradiction; [exact IH|].
  rewrite (sameRow_key_l a b row (repeats_key a b Hab)).
  now destruct (sameRow b row).
Qed.

End KeyPreserving.

Lemma completed_incl w c tokens t :
  In t (completed w c tokens) -> In t tokens.
Proof.
  induction tokens as [|t' tokens IH]; simpl; [tauto|].
  destruct (extracts w c t'); simpl; [|tauto].
  intros [-> | H]; [now left | right; now apply IH].
Qed.

Lemma refresh_writes_present w db c :
  Forall
    (fun t => Forall (fun cm => existsb (sameRow cm) db = true)
                (extracted w c t))
    (truthyTokenIds (getCollectionMints db c STANDARD)) ->
  Forall (fun cm => existsb (sameRow cm) db = true)
    (writesOf (fst (refreshByCollection w db c))).
Proof.
  intros H. rewrite refresh_writes. apply List.Forall_forall. intros cm Hin.
  apply List.in_flat_map in Hin as (t & Ht & Hcm).
  apply List.in_app_or in Hcm as [Hl | Hc].
  - apply completed_incl in Ht.
    rewrite List.Forall_forall in H. specialize (H t Ht).
    rewrite List.Forall_forall in H. now apply H.
  - apply List.in_map_iff in Hc as (x & <- & Hx).
    apply List.filter_In in Hx as [Hx _].
    unfold getCollectionMints in Hx. apply List.filter_In in Hx as [Hx _].
    apply List.existsb_exists. exists x. split; [exact Hx|].
    apply sameRow_eq, rowKey_closedCopy.
Qed.

Lemma settle_twice ws1 ws2 row :
  Forall2 (repeats (settle ws1)) ws1 ws2 ->
  settle ws2 (settle ws1 row) = settle ws1 row.
Proof.
  intros Hrep.
  pose proof (repeats_lastMatch (settle ws1) (rowKey_settle ws1) row ws1 ws2
                Hrep) as H.
  unfold settle at 2 3.
  destruct (lastMatch row ws1) as [a|] eqn:E1; unfold settle at 1.
  - pose proof (lastMatch_sameRow row ws1 a E1) as Ha.
    rewrite (lastMatch_key a row ws2 Ha).
    destruct (lastMatch row ws2) as [b|]; [|contradiction].
    destruct H as [-> | (x & -> & ->)]; [reflexivity|].
    rewrite rowKey_closedCopy in Ha.
    unfold settle. rewrite (lastMatch_key x row ws1 Ha), E1.
    apply closedCopy_idem.
  - destruct (lastMatch row ws2); [contradiction | reflexivity].
Qed.

Lemma existsb_sameRow_key (a b : CollectionMint) db :
  rowKey a = rowKey b -> existsb (sameRow a) db = existsb (sameRow b) db.
Proof.
  intros Hk. induction db as [|row db IH]; simpl; [reflexivity|].
  now rewrite IH, (sameRow_key_l a b row Hk).
Qed.

Lemma repeats_present f ws1 ws2 db :
  (forall row, rowKey (f row) = rowKey row) ->
  Forall (fun cm => existsb (sameRow cm) db = true) ws1 ->
  Forall2 (repeats f) ws1 ws2 ->
  Forall (fun cm => existsb (sameRow cm) (map f db) = true) ws2.
Proof.
  intros Hf Hpresent Hrep. revert Hpresent.
  induction Hrep as [|a b l1 l2 Hab _ IH]; intros Hpresent; constructor.
  - rewrite (existsb_sameRow_map f b db Hf).
    inversion Hpresent as [|? ? Ha _]; subst.
    rewrite <- (existsb_sameRow_key a b db); [exact Ha|].
    now apply (repeats_key f Hf).
  - apply IH. now inversion Hpresent.
Qed.

Lemma settle_again ws1 ws2 db :
  Forall (fun cm => existsb (sameRow cm) db = true) ws1 ->
  Forall2 (repeats (settle ws1)) ws1 ws2 ->
  fold_left (fun d cm => upsert cm d) ws2 (map (settle ws1) db)
    = map (settle ws1) db.
Proof.
  intros Hpresent Hrep. rewrite upserts_settle.
  - rewrite map_map. apply map_ext. intros row. now apply settle_twice.
  - exact (repeats_present _ ws1 ws2 db (rowKey_settle ws1) Hpresent Hrep).
Qed.

Lemma repeats_same_key_status f ws1 ws2 :
  (forall row, rowKey (f row) = rowKey row) ->
  Forall2 (repeats f) ws1 ws2 ->
  Forall2 (fun a b => rowKey a = rowKey b /\ status a = status b) ws1 ws2.
Proof.
  intros Hf Hrep. induction Hrep as [|a b l1 l2 Hab _ IH]; constructor;
    [|exact IH].
  split; [now apply (repeats_key f Hf) | now apply (repeats_status f)].
Qed.

(** Where the refresh repeats itself: when every record the first refresh
    extracts was already stored under its collection, stage and tokenId, a
    second refresh of the same chain state makes the writes of the first
    again, record for record by key and status, and leaves the store as
    the first refresh left it. *)
Lemma second_refresh_restores_store :
  forall w db collection0,
    Forall
      (fun t => Forall (fun cm => existsb (sameRow cm) db = true)
                  (extracted w collection0 t))
      (truthyTokenIds (getCollectionMints db collection0 STANDARD)) ->
    Forall2
      (fun a b => rowKey a = rowKey b /\ status a = status b)
      (writesOf (fst (refreshByCollection w db collection0)))
      (writesOf (fst (refreshByCollection w (refreshed w db collection0)
                        collection0))) /\
    refreshed w (refreshed w db collection0) collection0
      = refreshed w db collection0.
Proof.
  intros w db c Hstored.
  pose proof (refresh_writes_present w db c Hstored) as Hpresent.
  assert (Hdb1 : refreshed w db c =
                 map (settle (writesOf (fst (refreshByCollection w db c)))) db).
  { unfold refreshed. rewrite applyUpserts_writes. now apply upserts_settle. }
  rewrite Hdb1.
  set (ws1 := writesOf (fst (refreshByCollection w db c))) in *.
  assert (Hrep : Forall2 (repeats (settle ws1)) ws1
                   (writesOf (fst (refreshByCollection w
                                     (map (settle ws1) db) c)))).
  { rewrite (refresh_writes w (map (settle ws1) db) c).
    rewrite (getCollectionMints_map _ (rowKey_settle ws1)).
    rewrite (truthyTokenIds_map _ (rowKey_settle ws1)).
    unfold ws1 at 2. rewrite (refresh_writes w db c).
    apply (repeats_passes _ (rowKey_settle _)). }
  split.
  - exact (repeats_same_key_status _ _ _ (rowKey_settle ws1) Hrep).
  - unfold refreshed. rewrite applyUpserts_writes.
    now apply settle_again.
Qed.

Lemma second_refresh_restores_store_witness :
  Forall2
    (fun a b => rowKey a = rowKey b /\ status a = status b)
    (writesOf (fst (refreshByCollection twoTokenWorld [mint7; mint8]
                      aCollection)))
    (writesOf (fst (refreshByCollection twoTokenWorld
                      (refreshed twoTokenWorld [mint7; mint8] aCollection)
                      aCollection))) /\
  refreshed twoTokenWorld
    (refreshed twoTokenWorld [mint7; mint8] aCollection) aCollection
    = refreshed twoTokenWorld [mint7; mint8] aCollection.
Proof.
  apply (second_refresh_restores_store twoTokenWorld [mint7; mint8]
           aCollection).
  vm_compute. repeat constructor.
Defined.

(** C4 (defect in the code, the one of C3): a second refresh of an
    unchanged chain state does not leave the store as the first refresh
    left it.  Tokens 7 and 8 are stored; token 8 is on sale as stored and
    token 7 is now sold under another instance.  The first refresh stores
    the new record of token 7 and leaves the record of token 8 open.  The
    store now holds two records of token 7, so the second refresh makes a
    third pass, for token 7 again, after the pass of token 8; this pass
    compares the record of token 8 with the extraction for token 7 and
    writes it closed, although the extraction for token 8 returns it both
    times. *)
Theorem second_refresh_closes_record_on_sale :
  extracted movedWorld aCollection "7" = [mint7moved] /\
  extracted movedWorld aCollection "8" = [mint8] /\
  writesOf (fst (refreshByCollection movedWorld [mint7; mint8] aCollection))
    = [mint7moved; closedCopy mint7; closedCopy mint8;
       mint8; closedCopy mint7] /\
  refreshed movedWorld [mint7; mint8] aCollection
    = [closedCopy mint7; mint8; mint7moved] /\
  writesOf (fst (refreshByCollection movedWorld
                   (refreshed movedWorld [mint7; mint8] aCollection)
                   aCollection))
    = [mint7moved; closedCopy mint7; closedCopy mint8;
       mint8; closedCopy mint7; closedCopy mint7moved;
       mint7moved; closedCopy mint7; closedCopy mint8] /\
  refreshed movedWorld
    (refreshed movedWorld [mint7; mint8] aCollection) aCollection
    = [closedCopy mint7; closedCopy mint8; mint7moved] /\
  status mint8 = open /\
  status (closedCopy mint8) = closed.
Proof.
  repeat split; vm_compute; reflexivity.
Qed.

(** * Further properties of the detector *)

(** ** The per-token attempt *)

Lemma toString_nonzero (n : N) :
  n <> 0 -> String.eqb (toString n) "0" = false.
Proof.
  intros Hn. apply String.eqb_neq. intros H. apply Hn.
  now apply toString_inj.
Qed.

(** X1: the per-token attempt never rejects.  A read that fails inside it
    (the claim, the fee or the Merkle tree id) is logged and makes the
    attempt fall through to the collection-wide ladder; when the attempt
    returns a record, nothing was logged. *)
Theorem claimForToken_swallows_failures :
  forall w collection0 tokenId0 extension,
    match snd (claimForToken w collection0 tokenId0 extension) with
    | Ok (Some l) =>
        ~ In LoggerError (fst (claimForToken w collection0 tokenId0 extension))
        /\ exists cm, l = [cm]
    | Ok None => True
    | Throw _ => False
    end /\
    (In LoggerError (fst (claimForToken w collection0 tokenId0 extension)) <->
     getClaimForToken w extension collection0 tokenId0 = None \/
     exists instanceId claim,
       getClaimForToken w extension collection0 tokenId0
         = Some (instanceId, claim) /\
       instanceId <> 0 /\
       toLowerCase (Claim1155.erc20 claim) = nativeCurrency w /\
       (if String.eqb (Claim1155.merkleRoot claim) HashZero
        then MINT_FEE w extension = None
        else MINT_FEE_MERKLE w extension = None \/
             fetchMetadata w (instanceDataUrl (toString instanceId)) = None)).
Proof.
  intros w c t e. unfold claimForToken. unfold_monad.
  destruct (getClaimForToken w e c t) as [[iid claim]|] eqn:Eread; simpl.
  2: { split; [exact I|]. split; [now left | intros _; right; now left]. }
  destruct (N.eq_dec iid 0) as [->|Hiid].
  { simpl. split; [exact I|]. split; [intuition discriminate|].
    intros [Hnone | (i & cl & [= <- <-] & Hi & _)]; [discriminate | now destruct Hi]. }
  rewrite (toString_nonzero iid Hiid). simpl.
  destruct (String.eqb (toLowerCase (Claim1155.erc20 claim)) (nativeCurrency w))
    eqn:Eerc; simpl.
  2: { apply String.eqb_neq in Eerc. split; [exact I|].
       split; [intuition discriminate|].
       intros [Hnone | (i & cl & [= <- <-] & _ & He & _)];
         [discriminate | now destruct Eerc]. }
  apply String.eqb_eq in Eerc.
  destruct (String.eqb (Claim1155.merkleRoot claim) HashZero) eqn:Eroot; simpl.
  - destruct (MINT_FEE w e) as [fee|] eqn:Efee; simpl.
    + split; [split; [intuition discriminate | eauto]|].
      split; [intuition discriminate|].
      intros [Hnone | (i & cl & [= <- <-] & _ & _ & Hf)]; [discriminate|].
      rewrite Eroot in Hf. congruence.
    + split; [exact I|]. split; [intros _ | intros _; simpl; tauto].
      right. exists iid, claim. rewrite Eroot. auto.
  - destruct (MINT_FEE_MERKLE w e) as [fee|] eqn:Efee; simpl.
    + destruct (fetchMetadata w (instanceDataUrl (toString iid))) as [tree|]
        eqn:Etree; simpl.
      * split; [split; [intuition discriminate | eauto]|].
        split; [intuition discriminate|].
        intros [Hnone | (i & cl & [= <- <-] & _ & _ & Hf)]; [discriminate|].
        rewrite Eroot in Hf. destruct Hf; congruence.
      * split; [exact I|]. split; [intros _ | intros _; simpl; tauto].
        right. exists iid, claim. rewrite Eroot. auto.
    + split; [exact I|]. split; [intros _ | intros _; simpl; tauto].
      right. exists iid, claim. rewrite Eroot. auto.
Qed.

(** X2: a per-token claim whose instance id is 0, or which is paid in
    another currency than the native one, is passed over after the one
    read: no fee is fetched, nothing is logged, and the collection-wide
    ladder runs next. *)
Theorem claimForToken_skips_unusable_claim :
  forall w collection0 tokenId0 extension instanceId claim,
    getClaimForToken w extension collection0 tokenId0
      = Some (instanceId, claim) ->
    instanceId = 0 \/
    toLowerCase (Claim1155.erc20 claim) <> nativeCurrency w ->
    claimForToken w collection0 tokenId0 extension =
      ([GetClaimForToken extension collection0 tokenId0], Ok None).
Proof.
  intros w c t e iid claim Hread Hskip.
  unfold claimForToken. unfold_monad. rewrite Hread. simpl.
  destruct Hskip as [-> | Herc]; [reflexivity|].
  apply String.eqb_neq in Herc. rewrite Herc, andb_false_r. reflexivity.
Qed.

Lemma claimForToken_skips_unusable_claim_witness :
  claimForToken erc20World aCollection "7" anExtension =
    ([GetClaimForToken anExtension aCollection "7"], Ok None).
Proof.
  apply (claimForToken_skips_unusable_claim erc20World aCollection "7"
           anExtension 3 erc20TokenClaim).
  - reflexivity.
  - right. vm_compute. discriminate.
Defined.

(** ** Extraction under an extension hint *)

Lemma extractByCollection_hint w c t e ci :
  e <> "" ->
  extractByCollection w c t (Some e) ci =
    (fst (scanExtension w c t ci e),
     match snd (scanExtension w c t ci e) with
     | Ok (Some l) => Ok l
     | Ok None => Ok []
     | Throw x => Throw x
     end).
Proof.
  intros He. apply String.eqb_neq in He.
  unfold extractByCollection. rewrite He. cbn [negb forExtensions].
  unfold_monad.
  destruct (scanExtension w c t ci e) as [l [[x|]|x]]; simpl;
    now rewrite ?app_nil_r.
Qed.

Lemma scanExtension_token w c t ci e l cm :
  claimForToken w c t e = (l, Ok (Some [cm])) ->
  scanExtension w c t ci e = (l, Ok (Some [cm])).
Proof.
  intros H. unfold scanExtension. rewrite H. unfold_monad.
  now rewrite app_nil_r.
Qed.

(** X3: under an extension hint, a usable per-token claim is all that is
    read.  A public one costs two calls, the claim and [MINT_FEE]; an
    allowlist one three, the claim, [MINT_FEE_MERKLE] and the Merkle tree
    id.  The collection-wide shapes are not tried and the extensions are
    not enumerated, whatever the claim-index hint. *)
Theorem per_token_claim_is_emitted :
  forall w collection0 tokenId0 extension claimIndex instanceId claim,
    extension <> "" ->
    getClaimForToken w extension collection0 tokenId0
      = Some (instanceId, claim) ->
    instanceId <> 0 ->
    toLowerCase (Claim1155.erc20 claim) = nativeCurrency w ->
    (forall fee,
       Claim1155.merkleRoot claim = HashZero ->
       MINT_FEE w extension = Some fee ->
       extractByCollection w collection0 tokenId0 (Some extension) claimIndex =
       ([GetClaimForToken extension collection0 tokenId0; MintFee extension],
        Ok [publicTokenMint w collection0 tokenId0 extension
              (toString instanceId) claim
              (toString (Claim1155.cost claim + fee))])) /\
    (forall fee tree,
       Claim1155.merkleRoot claim <> HashZero ->
       MINT_FEE_MERKLE w extension = Some fee ->
       fetchMetadata w (instanceDataUrl (toString instanceId)) = Some tree ->
       extractByCollection w collection0 tokenId0 (Some extension) claimIndex =
       ([GetClaimForToken extension collection0 tokenId0;
         MintFeeMerkle extension;
         FetchMetadata (instanceDataUrl (toString instanceId))],
        Ok [allowlistTokenMint w collection0 tokenId0 extension
              (toString instanceId) claim
              (toString (Claim1155.cost claim + fee)) tree])).
Proof.
  intros w c t e ci iid claim He Hread Hiid Herc.
  apply String.eqb_eq in Herc.
  split.
  - intros fee Hroot Hfee. rewrite (extractByCollection_hint _ _ _ _ _ He).
    erewrite scanExtension_token; [reflexivity|].
    unfold claimForToken. unfold_monad.
    rewrite Hread. simpl. rewrite (toString_nonzero iid Hiid), Herc. simpl.
    rewrite Hroot. simpl. rewrite Hfee. reflexivity.
  - intros fee tree Hroot Hfee Htree.
    rewrite (extractByCollection_hint _ _ _ _ _ He).
    erewrite scanExtension_token; [reflexivity|].
    unfold claimForToken. unfold_monad.
    rewrite Hread. simpl. rewrite (toString_nonzero iid Hiid), Herc. simpl.
    apply String.eqb_neq in Hroot. rewrite Hroot. simpl.
    rewrite Hfee. simpl. rewrite Htree. reflexivity.
Qed.

Lemma per_token_claim_is_emitted_witness :
  extractByCollection tokenWorld aCollection "7" (Some anExtension)
    (Some "1") =
    ([GetClaimForToken anExtension aCollection "7"; MintFee anExtension],
     Ok [mint7]) /\
  extractByCollection allowlistTokenWorld aCollection "7" (Some anExtension)
    None =
    ([GetClaimForToken anExtension aCollection "7";
      MintFeeMerkle anExtension; FetchMetadata (instanceDataUrl "3")],
     Ok [allowlistTokenMint allowlistTokenWorld aCollection "7" anExtension
           "3" (tokenClaim aRoot 100) "109" (Some "tree-1")]).
Proof.
  split.
  - apply (proj1 (per_token_claim_is_emitted tokenWorld aCollection "7"
                    anExtension (Some "1") 3 (tokenClaim HashZero 100)
                    ltac:(discriminate) eq_refl ltac:(discriminate) eq_refl)
             5); reflexivity.
  - apply (proj2 (per_token_claim_is_emitted allowlistTokenWorld aCollection
                    "7" anExtension None 3 (tokenClaim aRoot 100)
                    ltac:(discriminate) eq_refl ltac:(discriminate) eq_refl)
             9 (Some "tree-1")); [discriminate | reflexivity | reflexivity].
Defined.

(** ** The collection-wide ladder *)

Lemma scanExtension_index w c t ci e l1 :
  claimForToken w c t e = (l1, Ok None) ->
  scanExtension w c t ci e =
    ((l1 ++ indexReads c ci e ++
      fst (fromClaimConfig w c t ci e (preferredConfig w c ci e)))%list,
     snd (fromClaimConfig w c t ci e (preferredConfig w c ci e))).
Proof.
  intros H. unfold scanExtension. rewrite H.
  unfold bind at 1. rewrite readClaimConfig_eq. unfold bind at 1.
  fold (preferredConfig w c ci e). fold (indexReads c ci e).
  now destruct (fromClaimConfig w c t ci e (preferredConfig w c ci e)).
Qed.

Lemma claimForToken_reverted w c t e :
  getClaimForToken w e c t = None ->
  claimForToken w c t e =
    ([GetClaimForToken e c t; LoggerError], Ok None).
Proof.
  intros H. unfold claimForToken. unfold_monad. now rewrite H.
Qed.

Lemma preferredConfig_newer w c ci e claim fee feeMerkle :
  getClaimV2 w e c ci = Some claim ->
  MINT_FEE w e = Some fee ->
  MINT_FEE_MERKLE w e = Some feeMerkle ->
  preferredConfig w c ci e = Some (configOfV2 claim fee feeMerkle).
Proof. unfold preferredConfig. now intros -> -> ->. Qed.

(** X4: the collection-wide ladder does not look at the claim's [erc20]
    field.  When the per-token read reverts and the newer shape decodes
    with a zero Merkle root, the claim is returned as a public record
    priced at cost plus [MINT_FEE] and with the native currency as its
    currency, whatever token the claim is to be paid in.  The metadata
    service is not contacted. *)
Theorem newer_public_claim_is_emitted_in_native_currency :
  forall w collection0 tokenId0 extension claimIndex claim fee feeMerkle,
    extension <> "" ->
    getClaimForToken w extension collection0 tokenId0 = None ->
    getClaimV2 w extension collection0 claimIndex = Some claim ->
    MINT_FEE w extension = Some fee ->
    MINT_FEE_MERKLE w extension = Some feeMerkle ->
    ClaimV2.merkleRoot claim = HashZero ->
    extractByCollection w collection0 tokenId0 (Some extension) claimIndex =
      (([GetClaimForToken extension collection0 tokenId0; LoggerError] ++
        indexReads collection0 claimIndex extension)%list,
       Ok [publicIndexMint w collection0 tokenId0 claimIndex extension
             (configOfV2 claim fee feeMerkle)
             (toString (ClaimV2.cost claim + fee))]) /\
    currency (publicIndexMint w collection0 tokenId0 claimIndex extension
                (configOfV2 claim fee feeMerkle)
                (toString (ClaimV2.cost claim + fee))) = nativeCurrency w.
Proof.
  intros w c t e ci claim fee feeM He Hrev Hc Hf Hm Hroot.
  split; [|reflexivity].
  rewrite (extractByCollection_hint _ _ _ _ _ He).
  rewrite (scanExtension_index _ _ _ _ _ _ (claimForToken_reverted _ _ _ _ Hrev)).
  rewrite (preferredConfig_newer _ _ _ _ _ _ _ Hc Hf Hm).
  unfold fromClaimConfig. unfold_monad. rewrite Hroot. simpl.
  rewrite !bn_toString. simpl. now rewrite app_nil_r.
Qed.

Lemma newer_public_claim_is_emitted_in_native_currency_witness :
  ClaimV2.erc20 erc20NewerClaim = usdc /\
  snd (extractByCollection erc20NewerWorld aCollection "7" (Some anExtension)
         (Some "1")) =
    Ok [publicIndexMint erc20NewerWorld aCollection "7" (Some "1") anExtension
          (configOfV2 erc20NewerClaim 5 9) "105"] /\
  currency (publicIndexMint erc20NewerWorld aCollection "7" (Some "1")
              anExtension (configOfV2 erc20NewerClaim 5 9) "105")
    = zeroAddress.
Proof.
  split; [reflexivity|].
  destruct (newer_public_claim_is_emitted_in_native_currency erc20NewerWorld
              aCollection "7" anExtension (Some "1") erc20NewerClaim 5 9)
    as [Hrun Hcur]; try reflexivity; try discriminate.
  split; [now rewrite Hrun | exact Hcur].
Defined.

(** X5: a failure of the metadata service is not swallowed in the
    collection-wide ladder.  When the extensions are enumerated, the
    per-token read of the first one reverts and its collection-wide claim
    is an allowlist claim whose Merkle tree id cannot be fetched, the whole
    extraction rejects with that failure and the remaining extensions are
    not scanned. *)
Theorem index_metadata_failure_rejects :
  forall w collection0 tokenId0 claimIndex extension rest cfg,
    getExtensions w collection0 = Some (extension :: rest) ->
    getClaimForToken w extension collection0 tokenId0 = None ->
    preferredConfig w collection0 claimIndex extension = Some cfg ->
    ClaimConfig.merkleRoot cfg <> HashZero ->
    fetchMetadata w (instanceDataUrl (render claimIndex)) = None ->
    extractByCollection w collection0 tokenId0 None claimIndex =
      (([GetExtensions collection0;
         GetClaimForToken extension collection0 tokenId0; LoggerError] ++
        indexReads collection0 claimIndex extension ++
        [FetchMetadata (instanceDataUrl (render claimIndex))])%list,
       Throw (CallFailed
                (FetchMetadata (instanceDataUrl (render claimIndex))))).
Proof.
  intros w c t ci e rest cfg Hexts Hrev Hcfg Hroot Hmeta.
  unfold extractByCollection. unfold call at 1. rewrite Hexts.
  unfold bind at 1. cbn [forExtensions].
  rewrite (scanExtension_index _ _ _ _ _ _ (claimForToken_reverted _ _ _ _ Hrev)).
  rewrite Hcfg.
  assert (Hfrom : fromClaimConfig w c t ci e (Some cfg) =
                  ([FetchMetadata (instanceDataUrl (render ci))],
                   Throw (CallFailed
                            (FetchMetadata (instanceDataUrl (render ci)))))).
  { assert (Hcost : exists n, bn (ClaimConfig.cost cfg) = Some n /\
                      exists m, bn (ClaimConfig.mintFeeMerkle cfg) = Some m).
    { unfold preferredConfig in Hcfg.
      destruct (getClaimV2 w e c ci) as [c2|];
        [destruct (MINT_FEE w e) as [f|];
         [destruct (MINT_FEE_MERKLE w e) as [fm|]|]|].
      1: { injection Hcfg as <-. simpl. rewrite !bn_toString. eauto. }
      all: destruct (truthy ci); [|discriminate];
           destruct (getClaimV1 w e c ci) as [c1|]; [|discriminate];
           injection Hcfg as <-; simpl; rewrite bn_toString;
           eexists; split; [reflexivity|]; exists 0; reflexivity. }
    destruct Hcost as (n & Hn & m & Hm).
    unfold fromClaimConfig. unfold_monad.
    apply String.eqb_neq in Hroot. rewrite Hroot. simpl.
    rewrite Hn, Hm. simpl. rewrite Hmeta. reflexivity. }
  rewrite Hfrom. unfold bind, fst, snd. reflexivity.
Qed.

Lemma index_metadata_failure_rejects_witness :
  snd (extractByCollection offlineWorld aCollection "8" None (Some "1")) =
    Throw (CallFailed (FetchMetadata (instanceDataUrl "1"))) /\
  snd (claimForToken offlineWorld aCollection "7" anExtension) = Ok None.
Proof.
  split; [|reflexivity].
  rewrite (index_metadata_failure_rejects offlineWorld aCollection "8"
             (Some "1") anExtension []
             (configOfV2 (newerClaim aRoot 200) 5 9));
    [reflexivity | reflexivity | reflexivity | reflexivity | discriminate
    | reflexivity].
Defined.

(** ** What a scan calls *)

Lemma claimForToken_calls w c t ci e :
  Forall (scansOnly e c t ci) (fst (claimForToken w c t e)).
Proof.
  unfold claimForToken. unfold_monad.
  destruct (getClaimForToken w e c t) as [[iid claim]|]; simpl;
    [|repeat constructor].
  destruct (negb _ && _); simpl; [|repeat constructor].
  destruct (String.eqb (Claim1155.merkleRoot claim) HashZero); simpl.
  - destruct (MINT_FEE w e); repeat constructor.
  - destruct (MINT_FEE_MERKLE w e); simpl; [|repeat constructor].
    destruct (fetchMetadata w _); repeat constructor.
Qed.

Lemma fromClaimConfig_calls w c t ci e cfg :
  Forall (scansOnly e c t ci) (fst (fromClaimConfig w c t ci e cfg)).
Proof.
  unfold fromClaimConfig. unfold_monad.
  destruct cfg as [cfg|]; [|constructor].
  destruct (String.eqb (ClaimConfig.merkleRoot cfg) HashZero); simpl.
  - destruct (bn (ClaimConfig.cost cfg)); simpl; [|constructor].
    destruct (bn (ClaimConfig.mintFee cfg)); constructor.
  - destruct (bn (ClaimConfig.cost cfg)); simpl; [|constructor].
    destruct (bn (ClaimConfig.mintFeeMerkle cfg)); simpl; [|constructor].
    destruct (fetchMetadata w _); repeat constructor.
Qed.

Lemma scanExtension_calls w c t ci e :
  Forall (scansOnly e c t ci) (fst (scanExtension w c t ci e)).
Proof.
  unfold scanExtension. rewrite fst_bind.
  apply List.Forall_app. split; [apply claimForToken_calls|].
  destruct (snd (claimForToken w c t e)) as [[l|]|x]; try constructor.
  rewrite fst_bind, readClaimConfig_eq. simpl fst. simpl snd.
  apply List.Forall_app. split; [|apply fromClaimConfig_calls].
  destruct (truthy ci) eqn:Et; simpl; repeat constructor; auto.
Qed.

(** X6: under a non-empty extension hint the extensions of the collection
    are never enumerated, and every chain read of the extraction is
    addressed to the hinted extension, with the collection, token id and
    claim index of the call; the older [getClaim] shape is read only if
    the claim index is set.  Neither the status resolver nor the store nor
    the cache is touched. *)
Theorem extension_hint_confines_the_scan :
  forall w collection0 tokenId0 extension claimIndex,
    extension <> "" ->
    Forall (scansOnly extension collection0 tokenId0 claimIndex)
      (fst (extractByCollection w collection0 tokenId0 (Some extension)
              claimIndex)).
Proof.
  intros w c t e ci He. rewrite (extractByCollection_hint _ _ _ _ _ He).
  apply scanExtension_calls.
Qed.

Lemma extension_hint_confines_the_scan_witness :
  Forall (scansOnly anExtension aCollection "7" (Some "1"))
    (fst (extractByCollection bothWorld aCollection "7" (Some anExtension)
            (Some "1"))).
Proof.
  apply (extension_hint_confines_the_scan bothWorld aCollection "7"
           anExtension (Some "1")).
  discriminate.
Defined.

(** ** The records returned *)

Lemma toLowerCase_idem (s : string) : toLowerCase (toLowerCase s) = toLowerCase s.
Proof.
  induction s as [|a s IH]; simpl; [reflexivity|]. rewrite IH. f_equal.
  unfold lowerAscii.
  destruct ((65 <=? N_of_ascii a) && (N_of_ascii a <=? 90)) eqn:E.
  - apply andb_prop in E as [E1 E2].
    apply N.leb_le in E1. apply N.leb_le in E2.
    rewrite N_ascii_embedding by lia.
    destruct (N.leb_spec (N_of_ascii a + 32) 90); [lia|].
    now rewrite andb_false_r.
  - now rewrite E.
Qed.

(** X7: every record returned by [extractByCollection] is a record of the
    collection asked for (as collection and as contract), of standard
    manifold, in the native currency, whose template calls [mintBatch]
    (0x26c858a4) on the lower-cased address of one of the scanned
    extensions; and its stage is the word claim, that address and the
    literal of the template's instance-id slot, joined by dashes. *)
Theorem returned_record_identity :
  forall w collection0 tokenId0 extension claimIndex log l cm,
    extractByCollection w collection0 tokenId0 extension claimIndex
      = (log, Ok l) ->
    In cm l ->
    collection cm = collection0 /\
    contract cm = collection0 /\
    standard cm = STANDARD /\
    currency cm = nativeCurrency w /\
    signature (data (tx (details cm))) = "0x26c858a4" /\
    toLowerCase (to (tx (details cm))) = to (tx (details cm)) /\
    stage cm = "claim-" ++ to (tx (details cm)) ++ "-" ++ idSlot cm /\
    exists exts e,
      scanned w collection0 extension = Some exts /\ In e exts /\
      to (tx (details cm)) = toLowerCase e.
Proof.
  intros w c t ext claimIndex log l cm E Hin.
  destruct (extractByCollection_inv w c t ext claimIndex log _ E)
    as [H | [(url & H) | [H | (exts & e & s & fee & cm' & Hsc & Hine & H & Hem)]]];
    try discriminate; inv_pair H; [contradiction|].
  destruct Hin as [<- | []].
  destruct Hem; simpl; rewrite toLowerCase_idem;
    repeat (split; [first [reflexivity | destruct claimIndex; reflexivity]|]);
    now exists exts, e.
Qed.

Lemma returned_record_identity_witness :
  collection allowlistStage = aCollection /\
  contract allowlistStage = aCollection /\
  standard allowlistStage = STANDARD /\
  currency allowlistStage = nativeCurrency bothWorld /\
  signature (data (tx (details allowlistStage))) = "0x26c858a4" /\
  toLowerCase (to (tx (details allowlistStage)))
    = to (tx (details allowlistStage)) /\
  stage allowlistStage =
    "claim-" ++ to (tx (details allowlistStage)) ++ "-"
      ++ idSlot allowlistStage /\
  exists exts e,
    scanned bothWorld aCollection None = Some exts /\ In e exts /\
    to (tx (details allowlistStage)) = toLowerCase e.
Proof.
  eapply (returned_record_identity bothWorld aCollection "7" None (Some "1")).
  - vm_compute. reflexivity.
  - left. reflexivity.
Defined.

(** X8: the template of a returned record agrees with its kind.  The six
    slots always have the ABI types of [mintBatch]; the two proof slots
    have the role unknown, with the empty array as literal, on a public
    record and the role allowlist, with no literal, on an allowlist record;
    and the record carries [details.info] exactly when it is an allowlist
    record. *)
Theorem template_agrees_with_kind :
  forall w collection0 tokenId0 extension claimIndex log l cm,
    extractByCollection w collection0 tokenId0 extension claimIndex
      = (log, Ok l) ->
    In cm l ->
    map abiType (params (data (tx (details cm)))) =
      ["address"; "uint256"; "uint16"; "uint32[]"; "bytes32[][]"; "address"]
    /\
    map param_kind (params (data (tx (details cm)))) =
      match kind cm with
      | public =>
          [p_contract; p_unknown; p_quantity; p_unknown; p_unknown;
           p_recipient]
      | allowlist =>
          [p_contract; p_unknown; p_quantity; p_allowlist; p_allowlist;
           p_recipient]
      end /\
    map abiValue (skipn 2 (params (data (tx (details cm))))) =
      match kind cm with
      | public => [None; Some (AbiArray []); Some (AbiArray []); None]
      | allowlist => [None; None; None; None]
      end /\
    (info (details cm) = None <-> kind cm = public).
Proof.
  intros w c t ext ci log l cm E Hin.
  destruct (extractByCollection_inv w c t ext ci log _ E)
    as [H | [(url & H) | [H | (exts & e & s & fee & cm' & _ & _ & H & Hem)]]];
    try discriminate; inv_pair H; [contradiction|].
  destruct Hin as [<- | []].
  destruct Hem; simpl; repeat (split; [reflexivity|]);
    split; intros; congruence.
Qed.

Lemma template_agrees_with_kind_witness :
  map abiType (params (data (tx (details allowlistStage)))) =
    ["address"; "uint256"; "uint16"; "uint32[]"; "bytes32[][]"; "address"] /\
  map param_kind (params (data (tx (details allowlistStage)))) =
    [p_contract; p_unknown; p_quantity; p_allowlist; p_allowlist;
     p_recipient] /\
  map abiValue (skipn 2 (params (data (tx (details allowlistStage))))) =
    [None; None; None; None] /\
  (info (details allowlistStage) = None <-> allowlist = public).
Proof.
  eapply (template_agrees_with_kind bothWorld aCollection "7" None (Some "1")
            _ _ allowlistStage).
  - vm_compute. reflexivity.
  - left. reflexivity.
Defined.

(** ** The loop over the extensions *)

(** X9: the loop stops at the first extension whose ladder returns or
    rejects.  The extensions listed after it are not scanned: the calls
    made and the result are those of the loop run on the list cut after
    that extension. *)
Theorem scan_stops_at_first_return :
  forall w collection0 tokenId0 claimIndex before extension after,
    snd (scanExtension w collection0 tokenId0 claimIndex extension)
      <> Ok None ->
    forExtensions w collection0 tokenId0 claimIndex
      (before ++ extension :: after) =
    forExtensions w collection0 tokenId0 claimIndex (before ++ [extension]).
Proof.
  intros w c t ci before e after Hstop.
  induction before as [|x before IH]; simpl.
  - destruct (scanExtension w c t ci e) as [l [[r|]|x]]; simpl in *;
      [reflexivity | now destruct Hstop | reflexivity].
  - now rewrite IH.
Qed.

Lemma scan_stops_at_first_return_witness :
  forExtensions twoExtensionWorld aCollection "7" None [anExtension; usdc] =
  forExtensions twoExtensionWorld aCollection "7" None [anExtension].
Proof.
  apply (scan_stops_at_first_return twoExtensionWorld aCollection "7" None
           [] anExtension [usdc]).
  vm_compute. discriminate.
Defined.

Lemma claimForToken_length w c t e :
  (length (fst (claimForToken w c t e)) <= 4)%nat /\
  (forall l, snd (claimForToken w c t e) = Ok (Some l) ->
             length (fst (claimForToken w c t e)) <= 3)%nat.
Proof.
  unfold claimForToken. unfold_monad.
  destruct (getClaimForToken w e c t) as [[iid claim]|]; simpl;
    [|split; [lia | discriminate]].
  destruct (negb _ && _); simpl; [|split; [lia | discriminate]].
  destruct (String.eqb (Claim1155.merkleRoot claim) HashZero); simpl.
  - destruct (MINT_FEE w e); simpl; (split; [lia | intros; lia || discriminate]).
  - destruct (MINT_FEE_MERKLE w e); simpl;
      [|split; [lia | discriminate]].
    destruct (fetchMetadata w _); simpl;
      (split; [lia | intros; lia || discriminate]).
Qed.

Lemma fromClaimConfig_length w c t ci e cfg :
  (length (fst (fromClaimConfig w c t ci e cfg)) <= 1)%nat.
Proof.
  unfold fromClaimConfig. unfold_monad.
  destruct cfg as [cfg|]; [|simpl; lia].
  destruct (String.eqb (ClaimConfig.merkleRoot cfg) HashZero); simpl.
  - destruct (bn (ClaimConfig.cost cfg)); simpl; [|lia].
    destruct (bn (ClaimConfig.mintFee cfg)); simpl; lia.
  - destruct (bn (ClaimConfig.cost cfg)); simpl; [|lia].
    destruct (bn (ClaimConfig.mintFeeMerkle cfg)); simpl; [|lia].
    destruct (fetchMetadata w _); simpl; lia.
Qed.

Lemma scanExtension_length w c t ci e :
  (length (fst (scanExtension w c t ci e)) <= 9)%nat.
Proof.
  unfold scanExtension. rewrite fst_bind, length_app.
  destruct (claimForToken_length w c t e) as [H4 H3].
  destruct (snd (claimForToken w c t e)) as [[l|]|x]; simpl.
  - specialize (H3 l eq_refl). lia.
  - rewrite fst_bind, readClaimConfig_eq. cbn [fst snd].
    fold (preferredConfig w c ci e). rewrite !length_app.
    pose proof (fromClaimConfig_length w c t ci e (preferredConfig w c ci e)).
    destruct (truthy ci); cbn [length]; lia.
  - lia.
Qed.

Lemma forExtensions_length w c t ci exts :
  (length (fst (forExtensions w c t ci exts)) <= 9 * length exts)%nat.
Proof.
  induction exts as [|e exts IH]; simpl; [lia|].
  rewrite fst_bind, length_app.
  pose proof (scanExtension_length w c t ci e).
  destruct (snd (scanExtension w c t ci e)) as [[l|]|x]; simpl; lia.
Qed.

(** X10: an extraction makes a bounded number of calls: one to enumerate
    the extensions, unless a hint names one, and at most nine log entries
    per scanned extension (eight reads and one logged error). *)
Theorem extraction_call_bound :
  forall w collection0 tokenId0 extension claimIndex,
    (length (fst (extractByCollection w collection0 tokenId0 extension
                    claimIndex))
     <= 1 + 9 * match scanned w collection0 extension with
                | Some exts => length exts
                | None => 0
                end)%nat.
Proof.
  intros w c t ext ci. unfold extractByCollection, scanned.
  rewrite fst_bind, length_app.
  assert (Hloop : forall exts,
            (length
               (fst (r <- forExtensions w c t ci exts ;;
                     match r with
                     | Some l => ret l
                     | None =>
                         mapM (fun cm =>
                                 sr <- call (GetStatus cm) (getStatus w cm) ;;
                                 ret (setStatus cm (fst sr) (snd sr))) []
                     end)) <= 9 * length exts)%nat).
  { intros exts. rewrite fst_bind, length_app.
    pose proof (forExtensions_length w c t ci exts).
    destruct (snd (forExtensions w c t ci exts)) as [[l|]|x]; simpl; lia. }
  assert (Henum :
            (length (fst (call (GetExtensions c) (getExtensions w c))) +
             length
               match snd (call (GetExtensions c) (getExtensions w c)) with
               | Ok exts =>
                   fst (r <- forExtensions w c t ci exts ;;
                        match r with
                        | Some l => ret l
                        | None =>
                            mapM (fun cm =>
                                    sr <- call (GetStatus cm) (getStatus w cm) ;;
                                    ret (setStatus cm (fst sr) (snd sr))) []
                        end)
               | Throw _ => []
               end
             <= 1 + 9 * match getExtensions w c with
                        | Some exts => length exts
                        | None => 0
                        end)%nat).
  { unfold call in *. cbn [fst snd length].
    destruct (getExtensions w c) as [exts|]; [|simpl; lia].
    specialize (Hloop exts). lia. }
  destruct ext as [e|]; [|exact Henum].
  destruct (negb (String.eqb e "")); [|exact Henum].
  specialize (Hloop [e]). cbn [ret fst snd length] in *. lia.
Qed.

(** ** Extraction from a transaction *)

Lemma selectors_exclusive (d : string) :
  String.prefix "0x26c858a4" d = true ->
  String.prefix "0xfa2b068f" d = false.
Proof.
  intros H.
  destruct d as [|a d]; [discriminate H|]. cbn [String.prefix] in H.
  destruct (ascii_dec "0" a) as [<-|]; [|discriminate H].
  destruct d as [|b d]; [discriminate H|]. cbn [String.prefix] in H.
  destruct (ascii_dec "x" b) as [<-|]; [|discriminate H].
  destruct d as [|x d]; [discriminate H|]. cbn [String.prefix] in H.
  destruct (ascii_dec "2" x) as [<-|]; [|discriminate H].
  reflexivity.
Qed.

(** X11: a transaction that calls [mintBatch] is handled like one that
    calls [mint], with the instance id decoded against the [mintBatch]
    signature; and when the arguments do not decode, for either selector,
    the failure is swallowed: the extraction still runs on the
    transaction's target, without a claim index. *)
Theorem extractByTx_mintBatch_and_decode_failure :
  forall w collection0 tokenId0 tx,
    (String.prefix "0x26c858a4" (tx_data tx) = true ->
     extractByTx w collection0 tokenId0 tx =
     extractByCollection w collection0 tokenId0 (Some (tx_to tx))
       (option_map toString
          (decodeInstanceId w "mintBatch" (tx_data tx)))) /\
    (String.prefix "0xfa2b068f" (tx_data tx) = true ->
     decodeInstanceId w "mint" (tx_data tx) = None ->
     extractByTx w collection0 tokenId0 tx =
     extractByCollection w collection0 tokenId0 (Some (tx_to tx)) None).
Proof.
  intros w c t tx. unfold extractByTx. simpl existsb. split.
  - intros Hp. rewrite Hp, (selectors_exclusive _ Hp). reflexivity.
  - intros Hp Hd. rewrite Hp, Hd. reflexivity.
Qed.

Lemma extractByTx_mintBatch_and_decode_failure_witness :
  extractByTx batchWorld aCollection "7" mintBatchTx =
    extractByCollection batchWorld aCollection "7" (Some anExtension)
      (Some "1") /\
  extractByTx batchWorld aCollection "7" truncatedTx =
    extractByCollection batchWorld aCollection "7" (Some anExtension) None /\
  extractByTx batchWorld aCollection "7" mintTx =
    extractByCollection batchWorld aCollection "7" (Some anExtension) None.
Proof.
  split; [|split].
  - apply (proj1 (extractByTx_mintBatch_and_decode_failure batchWorld
                    aCollection "7" mintBatchTx)). reflexivity.
  - apply (proj1 (extractByTx_mintBatch_and_decode_failure batchWorld
                    aCollection "7" truncatedTx)). reflexivity.
  - apply (proj2 (extractByTx_mintBatch_and_decode_failure batchWorld
                    aCollection "7" mintTx)); reflexivity.
Defined.

(** X12: whatever the transaction, [extractByTx] on a transaction with a
    target only looks at that target: it never enumerates the extensions
    of the collection, every chain read is addressed to the transaction's
    target, and every record it returns is a template calling the
    lower-cased target, built for the collection and token id given.  It
    rejects only when the metadata service fails. *)
Theorem extractByTx_looks_only_at_the_target :
  forall w collection0 tokenId0 tx0,
    tx_to tx0 <> "" ->
    (exists claimIndex,
       Forall (scansOnly (tx_to tx0) collection0 tokenId0 claimIndex)
         (fst (extractByTx w collection0 tokenId0 tx0))) /\
    match snd (extractByTx w collection0 tokenId0 tx0) with
    | Ok l =>
        Forall (fun cm =>
                  collection cm = collection0 /\
                  to (tx (details cm)) = toLowerCase (tx_to tx0))
               l
    | Throw x => exists url, x = CallFailed (FetchMetadata url)
    end.
Proof.
  intros w c t tx0 Hto. unfold extractByTx.
  destruct (existsb _ _).
  2: { split; [exists None; constructor | constructor]. }
  set (ci := option_map toString _).
  rewrite (extractByCollection_hint w c t (tx_to tx0) ci Hto).
  split; [exists ci; apply scanExtension_calls|].
  cbn [snd].
  destruct (scanExtension w c t ci (tx_to tx0)) as [log r] eqn:E.
  destruct (scanExtension_inv w c t ci (tx_to tx0) log r E)
    as [-> | [(url & ->) | (s & fee & cm & -> & Hem)]]; cbn [snd].
  - constructor.
  - now exists url.
  - constructor; [|constructor]. destruct Hem; split; reflexivity.
Qed.

Lemma extractByTx_looks_only_at_the_target_witness :
  (exists claimIndex,
     Forall (scansOnly anExtension aCollection "7" claimIndex)
       (fst (extractByTx newerWorld aCollection "7" mintTx))) /\
  match snd (extractByTx newerWorld aCollection "7" mintTx) with
  | Ok l =>
      Forall (fun cm =>
                collection cm = aCollection /\
                to (tx (details cm)) = toLowerCase anExtension)
             l
  | Throw x => exists url, x = CallFailed (FetchMetadata url)
  end.
Proof.
  apply (extractByTx_looks_only_at_the_target newerWorld aCollection "7"
           mintTx).
  discriminate.
Defined.

(** ** More on reconciliation *)

Lemma truthyTokenIds_none l :
  Forall (fun cm => truthy (tokenId cm) = false) l -> truthyTokenIds l = [].
Proof.
  unfold truthyTokenIds. induction 1 as [|cm l Hcm _ IH]; simpl;
    [reflexivity|].
  rewrite IH. unfold truthy in Hcm.
  destruct (tokenId cm) as [s|]; [|reflexivity].
  now destruct (String.eqb s "").
Qed.

(** X13: records without a token id are never reconciled.  When none of
    the stored records of the collection has a token id, a refresh reads
    the store and does nothing else: no extraction, no write, whatever the
    chain says, so such records are never closed. *)
Theorem refresh_ignores_records_without_tokenId :
  forall w db collection0,
    Forall (fun cm => truthy (tokenId cm) = false)
      (getCollectionMints db collection0 STANDARD) ->
    refreshByCollection w db collection0 =
      ([GetCollectionMints collection0 STANDARD], Ok tt) /\
    refreshed w db collection0 = db.
Proof.
  intros w db c H.
  assert (E : refreshByCollection w db c =
              ([GetCollectionMints c STANDARD], Ok tt)).
  { unfold refreshByCollection. unfold call, bind.
    now rewrite (truthyTokenIds_none _ H). }
  split; [exact E|]. unfold refreshed. now rewrite E.
Qed.

Lemma refresh_ignores_records_without_tokenId_witness :
  extracted goneWorld aCollection "7" = [] /\
  refreshByCollection goneWorld [allowlistStage] aCollection =
    ([GetCollectionMints aCollection STANDARD], Ok tt) /\
  refreshed goneWorld [allowlistStage] aCollection = [allowlistStage].
Proof.
  split; [reflexivity|].
  apply (refresh_ignores_records_without_tokenId goneWorld [allowlistStage]
           aCollection).
  vm_compute. repeat constructor.
Defined.

Lemma refreshPasses_outcome w c existing tokens :
  match snd (forEachM (refreshPass w c existing) tokens) with
  | Ok _ => forallb (extracts w c) tokens = true
  | Throw x =>
      exists t, In t tokens /\
                snd (extractByCollection w c t None None) = Throw x
  end.
Proof.
  induction tokens as [|t tokens IH]; [reflexivity|].
  cbn [forEachM forallb]. rewrite snd_bind.
  destruct (refreshPass_run w c existing t) as [Hr _]. rewrite Hr.
  unfold extracts.
  destruct (snd (extractByCollection w c t None None)) as [l|x] eqn:E.
  - destruct (snd (forEachM (refreshPass w c existing) tokens)) as [u|x].
    + exact IH.
    + destruct IH as (t' & Hin & Ht'). exists t'. split; [now right|exact Ht'].
  - exists t. split; [now left | exact E].
Qed.

(** X14: a refresh rejects exactly when one of its extractions does, and
    with that extraction's failure (the enumeration of the extensions or
    the metadata service): nothing is caught.  When it returns, every
    pass was completed.  The store operations are taken to return
    normally. *)
Theorem refresh_fails_only_with_an_extraction :
  forall w db collection0,
    match snd (refreshByCollection w db collection0) with
    | Ok _ =>
        completed w collection0
          (truthyTokenIds (getCollectionMints db collection0 STANDARD))
        = truthyTokenIds (getCollectionMints db collection0 STANDARD)
    | Throw x =>
        (exists t,
           In t (truthyTokenIds (getCollectionMints db collection0 STANDARD))
           /\ snd (extractByCollection w collection0 t None None) = Throw x)
        /\ (x = CallFailed (GetExtensions collection0) \/
            exists url, x = CallFailed (FetchMetadata url))
    end.
Proof.
  intros w db c. unfold refreshByCollection. rewrite snd_bind.
  cbn [call snd].
  pose proof (refreshPasses_outcome w c (getCollectionMints db c STANDARD)
                (truthyTokenIds (getCollectionMints db c STANDARD))) as H.
  destruct (snd (forEachM _ _)) as [u|x].
  - clear -H. induction (truthyTokenIds _) as [|t ts IH]; [reflexivity|].
    cbn [forallb completed] in *. apply andb_prop in H as [Ht Hts].
    rewrite Ht. f_equal. now apply IH.
  - split; [exact H|]. destruct H as (t & _ & Ht).
    destruct (extractByCollection w c t None None) as [log r] eqn:E.
    simpl in Ht. subst r.
    destruct (extractByCollection_inv w c t None None log _ E)
      as [H | [(url & H) | [H | (? & ? & ? & ? & ? & _ & _ & H & _)]]];
      try discriminate; injection H as ->; [now left | right; now exists url].
Qed.

Lemma pass_writes_something (latest existing : list CollectionMint) :
  existing <> [] ->
  (1 <= length (latest ++
                map closedCopy (List.filter (missingFrom latest) existing)))%nat.
Proof.
  intros Hex. destruct latest as [|cm latest]; [|simpl; lia].
  destruct existing as [|ex existing]; [contradiction|].
  simpl. lia.
Qed.

(** X15: every pass a refresh completes writes at least once: it upserts
    what it extracted, and when it extracted nothing it closes every stored
    record.  A refresh of a collection with a stored token id is therefore
    never free of writes once its first extraction returns. *)
Theorem every_completed_pass_writes :
  forall w db collection0,
    (length (completed w collection0
               (truthyTokenIds (getCollectionMints db collection0 STANDARD)))
     <= length (writesOf (fst (refreshByCollection w db collection0))))%nat.
Proof.
  intros w db c. rewrite refresh_writes.
  set (existing := getCollectionMints db c STANDARD).
  destruct (truthyTokenIds existing) as [|t0 ts] eqn:Etok; [simpl; lia|].
  assert (Hex : existing <> []).
  { intros E. rewrite E in Etok. discriminate. }
  induction (completed w c (t0 :: ts)) as [|t done IH]; simpl; [lia|].
  rewrite !length_app.
  pose proof (pass_writes_something (extracted w c t) existing Hex) as H.
  rewrite length_app in H. lia.
Qed.

(** ** More on the proof cache *)

(** X16: a call touches the cache at the record's own key only, and never
    replaces an entry that has not expired: every other key keeps its
    entry, and on a hit the keyspace is left exactly as it was. *)
Theorem proof_cache_touches_only_its_key :
  forall w now redis cm address,
    (forall k,
       k <> cacheKeyOf cm ->
       snd (generateProofValue w now redis cm address) !! k = redis !! k) /\
    (redis_get now redis (cacheKeyOf cm) <> None ->
     snd (generateProofValue w now redis cm address) = redis).
Proof.
  intros w now redis cm address. unfold generateProofValue. split.
  - intros k Hk.
    destruct (redis_get now redis (cacheKeyOf cm)); simpl; [reflexivity|].
    destruct (info (details cm)); [|reflexivity].
    destruct (axiosGet w _) as [[|v vs]|]; simpl; try reflexivity.
    unfold redis_set. now rewrite lookup_insert_ne.
  - intros Hhit.
    destruct (redis_get now redis (cacheKeyOf cm)); [reflexivity|].
    now destruct Hhit.
Qed.

Lemma proof_cache_touches_only_its_key_witness :
  snd (generateProofValue tokenWorld 1000
         (<["other" := (JSON_stringify bobProof, 5000)]> ∅)
         allowlistStage alice) !! "other"
    = Some (JSON_stringify bobProof, 5000) /\
  snd (generateProofValue bobWorld 1000
         (<[cacheKeyOf allowlistStage := (JSON_stringify aliceProof, 4600)]> ∅)
         allowlistStage bob)
    = <[cacheKeyOf allowlistStage := (JSON_stringify aliceProof, 4600)]> ∅.
Proof.
  destruct (proof_cache_touches_only_its_key tokenWorld 1000
              (<["other" := (JSON_stringify bobProof, 5000)]> ∅)
              allowlistStage alice) as [Hframe _].
  destruct (proof_cache_touches_only_its_key bobWorld 1000
              (<[cacheKeyOf allowlistStage
                 := (JSON_stringify aliceProof, 4600)]> ∅)
              allowlistStage bob) as [_ Hhit].
  split.
  - rewrite Hframe; [reflexivity | vm_compute; discriminate].
  - apply Hhit. vm_compute. discriminate.
Defined.

(** X17: whenever a call returns a value, that value is what the cache
    holds under the record's key right after the call, whether it was read
    from the cache or fetched. *)
Theorem returned_proof_is_the_cached_one :
  forall w now redis cm address v,
    snd (fst (generateProofValue w now redis cm address)) = Ok (Some v) ->
    redis_get now (snd (generateProofValue w now redis cm address))
      (cacheKeyOf cm) = Some (JSON_stringify v).
Proof.
  intros w now redis cm address v. unfold generateProofValue.
  destruct (redis_get now redis (cacheKeyOf cm)) as [[v0]|] eqn:Eget; simpl.
  - intros [= <-]. exact Eget.
  - destruct (info (details cm)); [|discriminate].
    destruct (axiosGet w _) as [[|v1 vs]|]; simpl; try discriminate.
    intros [= <-]. unfold redis_get, redis_set.
    rewrite lookup_insert_eq.
    assert (Hlt : (now <? now + 3600) = true) by (apply N.ltb_lt; lia).
    now rewrite Hlt.
Qed.

Lemma returned_proof_is_the_cached_one_witness :
  redis_get 1000
    (snd (generateProofValue tokenWorld 1000 ∅ allowlistStage alice))
    (cacheKeyOf allowlistStage) = Some (JSON_stringify aliceProof).
Proof.
  apply (returned_proof_is_the_cached_one tokenWorld 1000 ∅ allowlistStage
           alice aliceProof).
  reflexivity.
Defined.

(** X18: a call that does not return a value leaves the cache as it was.
    It returns nothing only when the proof service answered with no entry.
    It rejects with a type error only on a miss for a record without
    [details.info], and then before any request is made; its only other
    failure is that of the request to the proof service. *)
Theorem failed_proof_lookup_caches_nothing :
  forall w now redis cm address,
    match snd (fst (generateProofValue w now redis cm address)) with
    | Ok (Some _) => True
    | Ok None =>
        snd (generateProofValue w now redis cm address) = redis /\
        exists info0,
          info (details cm) = Some info0 /\
          axiosGet w (merkleInfoUrl info0 address) = Some []
    | Throw TypeError =>
        snd (generateProofValue w now redis cm address) = redis /\
        info (details cm) = None /\
        fst (fst (generateProofValue w now redis cm address))
          = [RedisGet (cacheKeyOf cm)]
    | Throw (CallFailed (AxiosGet url)) =>
        snd (generateProofValue w now redis cm address) = redis /\
        axiosGet w url = None
    | Throw _ => False
    end.
Proof.
  intros w now redis cm address. unfold generateProofValue.
  destruct (redis_get now redis (cacheKeyOf cm)); simpl; [exact I|].
  destruct (info (details cm)) as [info0|] eqn:Einfo; simpl; [|auto].
  destruct (axiosGet w (merkleInfoUrl info0 address)) as [[|v vs]|] eqn:Eget;
    simpl; [|exact I|auto].
  split; [reflexivity|]. now exists info0.
Qed.

(** X19: once the 3600 seconds of an entry have passed, the entry no
    longer answers: the next call for the record fetches again, for its
    own claimant, returns the new first entry and stores it for another
    3600 seconds. *)
Theorem expired_entry_is_fetched_again :
  forall w w' now now' redis cm address address' info0 v others v' others',
    redis_get now redis (cacheKeyOf cm) = None ->
    info (details cm) = Some info0 ->
    axiosGet w (merkleInfoUrl info0 address) = Some (v :: others) ->
    now + 3600 <= now' ->
    axiosGet w' (merkleInfoUrl info0 address') = Some (v' :: others') ->
    generateProofValue w' now'
      (snd (generateProofValue w now redis cm address)) cm address' =
    (([RedisGet (cacheKeyOf cm); AxiosGet (merkleInfoUrl info0 address');
       RedisSet (cacheKeyOf cm) 3600], Ok (Some v')),
     <[cacheKeyOf cm := (JSON_stringify v', now' + 3600)]>
       (snd (generateProofValue w now redis cm address))).
Proof.
  intros w w' now now' redis cm address address' info0 v others v' others'
    Hmiss Hinfo Hget Hlate Hget'.
  assert (Hfirst : snd (generateProofValue w now redis cm address) =
                   <[cacheKeyOf cm := (JSON_stringify v, now + 3600)]> redis).
  { unfold generateProofValue. rewrite Hmiss, Hinfo. simpl.
    now rewrite Hget. }
  rewrite Hfirst. unfold generateProofValue at 1.
  unfold redis_get at 1. rewrite lookup_insert_eq.
  assert (Hexp : (now' <? now + 3600) = false)
    by (apply N.ltb_ge; exact Hlate).
  rewrite Hexp, Hinfo. simpl. rewrite Hget'. reflexivity.
Qed.

Lemma expired_entry_is_fetched_again_witness :
  generateProofValue bobWorld 4600
    (snd (generateProofValue tokenWorld 1000 ∅ allowlistStage alice))
    allowlistStage bob =
  (([RedisGet (cacheKeyOf allowlistStage);
     AxiosGet (merkleInfoUrl {| merkleTreeId := Some "tree-1" |} bob);
     RedisSet (cacheKeyOf allowlistStage) 3600], Ok (Some bobProof)),
   <[cacheKeyOf allowlistStage := (JSON_stringify bobProof, 8200)]>
     (snd (generateProofValue tokenWorld 1000 ∅ allowlistStage alice))).
Proof.
  apply (expired_entry_is_fetched_again tokenWorld bobWorld 1000 4600 ∅
           allowlistStage alice bob {| merkleTreeId := Some "tree-1" |}
           aliceProof [] bobProof []);
    [reflexivity | reflexivity | reflexivity | lia | reflexivity].
Defined.

Lemma append_nil_l (s : string) : "" ++ s = s.
Proof. reflexivity. Qed.

Lemma append_cons (a : ascii) (s t : string) :
  String a s ++ t = String a (s ++ t).
Proof. reflexivity. Qed.

Lemma dashFree_app_dash (x y : string) :
  dashFree (x ++ String "-" y) = false.
Proof.
  induction x as [|a x IH].
  - reflexivity.
  - rewrite append_cons. cbn [dashFree]. rewrite IH. apply andb_false_r.
Qed.

Lemma split_at_first_dash (c1 c2 r1 r2 : string) :
  dashFree c1 = true -> dashFree c2 = true ->
  c1 ++ String "-" r1 = c2 ++ String "-" r2 -> c1 = c2 /\ r1 = r2.
Proof.
  revert c2. induction c1 as [|a c1 IH]; intros [|b c2] H1 H2 E;
    rewrite ?append_nil_l, ?append_cons in E; cbn [dashFree] in *.
  - injection E as E. now split.
  - injection E as <- _. discriminate H2.
  - injection E as -> _. discriminate H1.
  - injection E as -> E.
    apply andb_prop in H1 as [_ H1]. apply andb_prop in H2 as [_ H2].
    destruct (IH c2 H1 H2 E) as [-> ->]. now split.
Qed.

Lemma split_at_last_dash (s1 s2 t1 t2 : string) :
  dashFree t1 = true -> dashFree t2 = true ->
  s1 ++ String "-" t1 = s2 ++ String "-" t2 -> s1 = s2 /\ t1 = t2.
Proof.
  revert s2. induction s1 as [|a s1 IH]; intros [|b s2] H1 H2 E;
    rewrite ?append_nil_l, ?append_cons in E.
  - injection E as E. now split.
  - injection E as _ E. rewrite E, dashFree_app_dash in H1. discriminate.
  - injection E as _ E. rewrite <- E, dashFree_app_dash in H2. discriminate.
  - injection E as -> E. destruct (IH s2 H1 H2 E) as [-> ->]. now split.
Qed.

Lemma render_inj (a b : option string) :
  opt_eqb a (Some "undefined") = false ->
  opt_eqb b (Some "undefined") = false ->
  render a = render b -> a = b.
Proof.
  destruct a as [x|], b as [y|]; simpl; intros Ha Hb E.
  - now subst.
  - subst. apply String.eqb_neq in Ha. now contradiction Ha.
  - subst. apply String.eqb_neq in Hb. now contradiction Hb.
  - reflexivity.
Qed.

(** The template renders an absent token id as the word undefined, so a
    record without token id and a record whose token id is that word get
    the same key. *)
Lemma cache_key_of_absent_tokenId :
  cacheKeyOf allowlistStage =
    cacheKeyOf (publicTokenMint tokenWorld aCollection "undefined" anExtension
                  "1" (tokenClaim HashZero 100) "105") /\
  tokenId allowlistStage = None /\
  tokenId (publicTokenMint tokenWorld aCollection "undefined" anExtension
             "1" (tokenClaim HashZero 100) "105") = Some "undefined".
Proof.
  repeat split; vm_compute; reflexivity.
Qed.

(** X20: two records share a cache key only if they agree on collection,
    stage and tokenId, provided their collections and token ids contain no
    dash (as addresses and decimal numbers do not) and neither token id is
    the word undefined, which is how the template renders an absent one;
    the stage may contain dashes, as the stages built here do. *)
Theorem cache_key_determines_the_triple :
  forall cm1 cm2,
    dashFree (collection cm1) = true ->
    dashFree (collection cm2) = true ->
    dashFree (render (tokenId cm1)) = true ->
    dashFree (render (tokenId cm2)) = true ->
    opt_eqb (tokenId cm1) (Some "undefined") = false ->
    opt_eqb (tokenId cm2) (Some "undefined") = false ->
    cacheKeyOf cm1 = cacheKeyOf cm2 ->
    collection cm1 = collection cm2 /\
    stage cm1 = stage cm2 /\
    tokenId cm1 = tokenId cm2.
Proof.
  intros cm1 cm2 Hc1 Hc2 Ht1 Ht2 Hu1 Hu2 E. unfold cacheKeyOf in E.
  change (collection cm1 ++
            String "-" (stage cm1 ++ String "-" (render (tokenId cm1))) =
          collection cm2 ++
            String "-" (stage cm2 ++ String "-" (render (tokenId cm2)))) in E.
  destruct (split_at_first_dash _ _ _ _ Hc1 Hc2 E) as [Hc Hrest].
  destruct (split_at_last_dash _ _ _ _ Ht1 Ht2 Hrest) as [Hs Ht].
  repeat split; [exact Hc | exact Hs | now apply render_inj].
Qed.

Lemma cache_key_determines_the_triple_witness :
  kind mint7 = public /\
  kind (allowlistTokenMint allowlistTokenWorld aCollection "7" anExtension
          "3" (tokenClaim aRoot 100) "109" (Some "tree-1")) = allowlist /\
  collection mint7 =
    collection (allowlistTokenMint allowlistTokenWorld aCollection "7"
                  anExtension "3" (tokenClaim aRoot 100) "109"
                  (Some "tree-1")) /\
  stage mint7 =
    stage (allowlistTokenMint allowlistTokenWorld aCollection "7"
             anExtension "3" (tokenClaim aRoot 100) "109" (Some "tree-1")) /\
  tokenId mint7 =
    tokenId (allowlistTokenMint allowlistTokenWorld aCollection "7"
               anExtension "3" (tokenClaim aRoot 100) "109" (Some "tree-1")).
Proof.
  split; [reflexivity|]. split; [reflexivity|].
  apply (cache_key_determines_the_triple mint7
           (allowlistTokenMint allowlistTokenWorld aCollection "7" anExtension
              "3" (tokenClaim aRoot 100) "109" (Some "tree-1")));
    reflexivity.
Defined.

(** ** What a refresh asks the chain *)

Lemma scansOnly_refreshCall e c t call :
  scansOnly e c t None call -> refreshCall c call.
Proof.
  destruct call; simpl; try tauto.
  intros (_ & _ & _ & H). discriminate H.
Qed.

Lemma forExtensions_refreshCalls w c t exts :
  Forall (refreshCall c) (fst (forExtensions w c t None exts)).
Proof.
  induction exts as [|e exts IH]; [constructor|].
  cbn [forExtensions]. rewrite fst_bind. apply List.Forall_app. split.
  - eapply List.Forall_impl; [|apply (scanExtension_calls w c t None e)].
    apply scansOnly_refreshCall.
  - destruct (snd (scanExtension w c t None e)) as [[l|]|x];
      [constructor | exact IH | constructor].
Qed.

Lemma extraction_refreshCalls w c t :
  Forall (refreshCall c) (fst (extractByCollection w c t None None)).
Proof.
  unfold extractByCollection. rewrite fst_bind. apply List.Forall_app. split.
  - unfold call. repeat constructor.
  - destruct (snd _) as [exts|x]; [|constructor].
    rewrite fst_bind. apply List.Forall_app.
    split; [apply forExtensions_refreshCalls|].
    destruct (snd (forExtensions w c t None exts)) as [[l|]|x]; constructor.
Qed.

Lemma forEachM_calls {A} (P : Call -> Prop) (f : A -> M unit) l :
  (forall a, Forall P (fst (f a))) -> Forall P (fst (forEachM f l)).
Proof.
  intros Hf. induction l as [|a l IH]; [constructor|].
  cbn [forEachM]. rewrite fst_bind. apply List.Forall_app.
  split; [apply Hf|]. destruct (snd (f a)); [exact IH | constructor].
Qed.

(** X21: a refresh extracts without hints.  The older [getClaim] shape is
    never read, and the newer shape is only ever read with an undefined
    claim index; apart from these reads of the collection's own claims and
    extensions, the fee and metadata reads and the error logger, a refresh
    only reads the store and upserts. *)
Theorem refresh_never_passes_a_claim_index :
  forall w db collection0,
    Forall (refreshCall collection0)
      (fst (refreshByCollection w db collection0)).
Proof.
  intros w db c. unfold refreshByCollection. rewrite fst_bind.
  apply List.Forall_app. split; [repeat constructor|].
  cbn [call snd]. apply forEachM_calls. intros t.
  unfold refreshPass. rewrite fst_bind. apply List.Forall_app.
  split; [apply extraction_refreshCalls|].
  destruct (snd (extractByCollection w c t None None)) as [latest|x];
    [|constructor].
  rewrite fst_bind. apply List.Forall_app. split.
  - apply forEachM_calls. intros cm. repeat constructor.
  - destruct (snd _); [|constructor].
    apply forEachM_calls. intros ex.
    destruct (missingFrom latest ex); repeat constructor.
Qed.

(** ** Numbers in a record *)

(** X22: the numbers a record carries as strings are decimal numerals
    that read back as the on-chain values: the price reads back as the
    cost plus the fee added, which is at least the cost, and a cap reads
    back as the on-chain maximum, which is positive when the cap is present
    and 0 when it is absent. *)
Theorem record_numerals_read_back :
  forall w collection0 tokenId0 extension claimIndex log l cm,
    extractByCollection w collection0 tokenId0 extension claimIndex
      = (log, Ok l) ->
    In cm l ->
    exists e s fee,
      Emits w collection0 tokenId0 claimIndex e s fee cm /\
      bn (price cm) = Some (costOf s + fee) /\
      costOf s <= costOf s + fee /\
      match maxMintsPerWallet cm with
      | Some cap => bn cap = Some (walletMaxOf s) /\ 0 < walletMaxOf s
      | None => walletMaxOf s = 0
      end /\
      match maxSupply cm with
      | Some cap => bn cap = Some (totalMaxOf s) /\ 0 < totalMaxOf s
      | None => totalMaxOf s = 0
      end.
Proof.
  intros w c t ext ci log l cm E Hin.
  destruct (extractByCollection_inv w c t ext ci log _ E)
    as [H | [(url & H) | [H | (exts & e & s & fee & cm' & _ & _ & H & Hem)]]];
    try discriminate; inv_pair H; [contradiction|].
  destruct Hin as [<- | []].
  exists e, s, fee. split; [exact Hem|].
  assert (Hcap : forall x,
            match capOf x with
            | Some cap => bn cap = Some x /\ 0 < x
            | None => x = 0
            end).
  { intros x. unfold capOf. destruct (N.ltb_spec 0 x); [|lia].
    split; [apply bn_toString | assumption]. }
  destruct Hem; simpl; rewrite bn_toString;
    (split; [reflexivity|]); (split; [lia|]); split; apply Hcap.
Qed.

Lemma record_numerals_read_back_witness :
  exists e s fee,
    Emits tokenWorld aCollection "7" None e s fee mint7 /\
    bn "105" = Some (costOf s + fee) /\
    costOf s <= costOf s + fee /\
    walletMaxOf s = 0 /\
    (bn "10" = Some (totalMaxOf s) /\ 0 < totalMaxOf s).
Proof.
  eapply (record_numerals_read_back tokenWorld aCollection "7" None None
            _ _ mint7).
  - vm_compute. reflexivity.
  - left. reflexivity.
Defined.

(** X23: the token id of a returned record is the token id the caller
    passed, on every record but the allowlist record of a collection-wide
    claim, which has none.  In particular the public record of a
    collection-wide claim carries the caller's token id. *)
Theorem record_tokenId_is_the_callers :
  forall w collection0 tokenId0 extension claimIndex log l cm,
    extractByCollection w collection0 tokenId0 extension claimIndex
      = (log, Ok l) ->
    In cm l ->
    exists e s fee,
      Emits w collection0 tokenId0 claimIndex e s fee cm /\
      tokenId cm =
        (if negb (isPerToken s) &&
            negb (String.eqb (rootOf s) HashZero)
         then None else Some tokenId0).
Proof.
  intros w c t ext ci log l cm E Hin.
  destruct (extractByCollection_inv w c t ext ci log _ E)
    as [H | [(url & H) | [H | (exts & e & s & fee & cm' & _ & _ & H & Hem)]]];
    try discriminate; inv_pair H; [contradiction|].
  destruct Hin as [<- | []].
  exists e, s, fee. split; [exact Hem|].
  destruct Hem; simpl;
    repeat match goal with
    | H : _ = HashZero |- _ => rewrite H
    | H : _ <> HashZero |- _ => apply String.eqb_neq in H; rewrite H
    end; reflexivity.
Qed.

Lemma record_tokenId_is_the_callers_witness :
  exists e s fee,
    Emits bothWorld aCollection "7" (Some "1") e s fee allowlistStage /\
    tokenId allowlistStage =
      (if negb (isPerToken s) && negb (String.eqb (rootOf s) HashZero)
       then None else Some "7").
Proof.
  eapply (record_tokenId_is_the_callers bothWorld aCollection "7" None
            (Some "1")).
  - vm_compute. reflexivity.
  - left. reflexivity.
Defined.
